(** * DuplicateFileRemover.py: hashing, grouping and deletion of duplicate files

    A shallow embedding of [calculate_hash], [find_duplicate_files],
    [delete_duplicates] and [main] of [DuplicateFileRemover.py], together with
    a small model of the operating-system and GUI calls they make, and the
    properties of the duplicate-detection core proved about them. *)

From Stdlib Require Import ZArith.
From Stdlib.Strings Require Import Ascii Byte.
From Equations Require Import Equations.
From Equations.Prop Require Import Logic.
From stdpp Require Import gmap strings list.

Local Open Scope string_scope.
Local Open Scope list_scope.
Local Open Scope Z_scope.

(** ** Exceptions and results *)

(** The [errno] carried by an [OSError].  In Python 3 [IOError] is an alias of
    [OSError], and [FileNotFoundError], [PermissionError] and
    [IsADirectoryError] are its subclasses for [ENOENT], [EACCES] and
    [EISDIR]. *)
Inductive errno := ENOENT | EACCES | EISDIR | EIO.

Inductive exn :=
| OSError (e : errno)
| IndexError
| KeyError (key : string).

Definition is_OSError (e : exn) : bool :=
  match e with OSError _ => true | _ => false end.

Inductive result (A : Type) :=
| Ok (a : A)
| Raise (e : exn).
Arguments Ok {A} a.
Arguments Raise {A} e.

(** ** The file system *)

(** A regular file: its bytes, whether it may be opened for reading, the index
    of a byte that cannot be read from the medium (if any), and whether the
    directory holding it lets its entry be unlinked. *)
Record file := File {
  content : list byte;
  readable : bool;
  bad_sector : option nat;
  removable : bool
}.

(** What a path names.  A path with no node names nothing (the file is gone);
    a dangling link is a symbolic link whose target does not exist; an
    inaccessible entry is one on which the system calls fail with the given
    [errno], as [EACCES] for a file in a directory that may be listed but not
    searched.  Every path names a file of its own: a symbolic link to a file
    that is there is not among the nodes. *)
Inductive node :=
| Regular (f : file)
| Directory (st_size : Z)
| DanglingLink
| Inaccessible (e : errno).

(** ** Observable effects *)

Inductive syscall :=
| Isdir (path : string)
| Walk (top : string)
| Getsize (path : string)
| Open (path : string)
| Remove (path : string).

Inductive message :=
| Plain (text : string)
| DeleteError (path : string) (e : exn)
| Confirmation (total_duplicates : Z) (paths : list string)
| Summary (deleted_count space_saved_bytes : Z).

Inductive event :=
| Sys (c : syscall)
| Printed (line : string)
| ShowError (title : string) (m : message)
| ShowInfo (title : string) (m : message)
| ConfirmWindow (m : message).

(** The state the program runs in: the nodes of the file system, what
    [os.walk] yields for a top directory (taken as the operating system reports
    it: a listing may name a file that is gone by the time it is processed),
    and the log of the calls made and of everything shown to the user. *)
Record world := World {
  nodes : gmap string node;
  tree : string -> list (string * list string * list string);
  log : list event
}.

Definition emit (e : event) (w : world) : world :=
  World (nodes w) (tree w) (log w ++ [e]).

Definition unlink (path : string) (w : world) : world :=
  World (delete path (nodes w)) (tree w) (log w).

(** ** A state and exception monad *)

Definition M (A : Type) : Type := world -> result A * world.

Definition ret {A} (a : A) : M A := fun w => (Ok a, w).
Definition raise {A} (e : exn) : M A := fun w => (Raise e, w).
Definition bind {A B} (m : M A) (k : A -> M B) : M B :=
  fun w => match m w with
           | (Ok a, w') => k a w'
           | (Raise e, w') => (Raise e, w')
           end.
Definition lift {A} (r : result A) : M A := fun w => (r, w).
Definition tell (e : event) : M unit := fun w => (Ok tt, emit e w).

#[global] Instance M_ret : MRet M := @ret.
#[global] Instance M_bind : MBind M := fun A B k m => bind m k.

(** [try: body / except <class>: handler]: an exception of the class is
    handled, any other propagates. *)
Definition try_except {A} (body : M A) (class : exn -> bool)
    (handler : exn -> M A) : M A :=
  fun w => match body w with
           | (Ok a, w') => (Ok a, w')
           | (Raise e, w') => if class e then handler e w' else (Raise e, w')
           end.

(** [for x in l: s = body x s]: a loop whose body updates the local variables
    [s]; an exception leaves the loop. *)
Fixpoint for_each {A S} (l : list A) (s : S) (body : A -> S -> M S) : M S :=
  match l with
  | [] => ret s
  | x :: l' => s' ← body x s; for_each l' s' body
  end.

(** ** Operating-system and GUI calls *)

Definition lookup_node (path : string) : M (option node) :=
  fun w => (Ok (nodes w !! path), w).

Definition os_path_isdir (path : string) : M bool :=
  tell (Sys (Isdir path));;
  n ← lookup_node path;
  ret match n with
      | Some (Directory _) => true
      | _ => false
      end.

Definition lookup_tree (top : string)
    : M (list (string * list string * list string)) :=
  fun w => (Ok (tree w top), w).

Definition os_walk (top : string)
    : M (list (string * list string * list string)) :=
  tell (Sys (Walk top));;
  lookup_tree top.

(** [os.path.getsize] follows links and raises the [OSError] of [os.stat]:
    [FileNotFoundError] when the path names nothing, [PermissionError] and
    the like on an entry that cannot be reached. *)
Definition stat_size (n : option node) : result Z :=
  match n with
  | Some (Regular f) => Ok (Z.of_nat (length (content f)))
  | Some (Directory sz) => Ok sz
  | Some DanglingLink | None => Raise (OSError ENOENT)
  | Some (Inaccessible e) => Raise (OSError e)
  end.

Definition os_path_getsize (path : string) : M Z :=
  tell (Sys (Getsize path));;
  n ← lookup_node path;
  lift (stat_size n).

(** [os.remove] unlinks a file or a link, and refuses a directory. *)
Definition can_remove (n : option node) : result unit :=
  match n with
  | Some (Regular f) => if removable f then Ok tt else Raise (OSError EACCES)
  | Some DanglingLink => Ok tt
  | Some (Directory _) => Raise (OSError EISDIR)
  | Some (Inaccessible e) => Raise (OSError e)
  | None => Raise (OSError ENOENT)
  end.

Definition drop_node (path : string) : M unit :=
  fun w => (Ok tt, unlink path w).

Definition os_remove (path : string) : M unit :=
  tell (Sys (Remove path));;
  n ← lookup_node path;
  lift (can_remove n);;
  drop_node path.

(** [open(filepath, 'rb')] *)
Definition open_node (n : option node) : result file :=
  match n with
  | Some (Regular f) => if readable f then Ok f else Raise (OSError EACCES)
  | Some (Directory _) => Raise (OSError EISDIR)
  | Some DanglingLink | None => Raise (OSError ENOENT)
  | Some (Inaccessible e) => Raise (OSError e)
  end.

Definition open_rb (filepath : string) : M file :=
  tell (Sys (Open filepath));;
  n ← lookup_node filepath;
  lift (open_node n).

(** [f.read(size)] at position [pos]: at most [size] bytes, everything that is
    left when [size] is negative, the empty string at end of file; an
    [OSError] when a byte of the block cannot be read. *)
Definition f_read (f : file) (pos : nat) (size : Z) : result (list byte) :=
  let rest := drop pos (content f) in
  let data := if size <? 0 then rest else take (Z.to_nat size) rest in
  match bad_sector f with
  | Some k => if decide (pos <= k < pos + length data)%nat
              then Raise (OSError EIO) else Ok data
  | None => Ok data
  end.

Definition print (line : string) : M unit := tell (Printed line).
Definition messagebox_showerror (title : string) (m : message) : M unit :=
  tell (ShowError title m).
Definition messagebox_showinfo (title : string) (m : message) : M unit :=
  tell (ShowInfo title m).

(** [os.path.join] of POSIX paths: an absolute second component replaces the
    first, otherwise the two are joined with a single separator. *)
Fixpoint ends_with_sep (a : string) : bool :=
  match a with
  | "" => false
  | String c "" => bool_decide (c = "/"%char)
  | String _ a' => ends_with_sep a'
  end.

Definition os_path_join (a b : string) : string :=
  match b with
  | String "/" _ => b
  | _ => if bool_decide (a = "") || ends_with_sep a then a +:+ b
         else a +:+ "/" +:+ b
  end.

(** [hashlib.sha256]: the hexadecimal digest of the bytes fed to the hasher,
    always 64 characters long. *)
Class Sha256 := {
  hexdigest : list byte -> string;
  hexdigest_length : forall data, String.length (hexdigest data) = 64%nat
}.

(** ** [calculate_hash] *)

(** The [while True] loop of [calculate_hash]: [sha256] holds the bytes fed to
    the hasher by [sha256.update(data)] so far. *)
Equations? read_blocks (f : file) (block_size : Z) (pos : nat)
    (sha256 : list byte) : result (list byte)
    by wf (length (content f) - pos)%nat lt :=
  read_blocks f block_size pos sha256 with inspect (f_read f pos block_size) := {
    | exist _ (Raise e) _ => Raise e
    | exist _ (Ok []) _ => Ok sha256
    | exist _ (Ok (b :: data)) Hread =>
        read_blocks f block_size (pos + S (length data)) (sha256 ++ b :: data) }.
Proof.
  unfold f_read in Hread.
  assert (Hlen : (S (length data) <= length (drop pos (content f)))%nat).
  { change (S (length data)) with (length (b :: data)).
    destruct (bad_sector f) as [k|]; [destruct (decide _); [done|] |];
      injection Hread as <-; destruct (block_size <? 0); try done;
      rewrite length_take; lia. }
  rewrite length_drop in Hlen. lia.
Qed.

Definition default_block_size : Z := 65536.

(** ** Dictionaries *)

(** [duplicates] is iterated with [.items()], so it is kept as Python keeps
    it: the keys in insertion order, each once. *)
Definition dict : Type := list (string * list string).

Fixpoint dict_get (k : string) (d : dict) : option (list string) :=
  match d with
  | [] => None
  | (k', v) :: d' => if decide (k = k') then Some v else dict_get k d'
  end.

(** [d[k] = v]: an existing key keeps its place, a new one goes last. *)
Fixpoint dict_set (k : string) (v : list string) (d : dict) : dict :=
  match d with
  | [] => [(k, v)]
  | (k', v') :: d' =>
      if decide (k = k') then (k, v) :: d' else (k', v') :: dict_set k v d'
  end.

(** [d[k]], a [KeyError] when the key is missing. *)
Definition dict_item (k : string) (d : dict) : M (list string) :=
  match dict_get k d with
  | Some v => ret v
  | None => raise (KeyError k)
  end.

(** [l[0]], an [IndexError] on the empty list. *)
Definition item0 (l : list string) : M string :=
  match l with
  | x :: _ => ret x
  | [] => raise IndexError
  end.

(** The truth value of [calculate_hash]'s result in [if file_hash:]: [None]
    and the empty string are false. *)
Definition truthy (file_hash : option string) : option string :=
  match file_hash with
  | Some h => if decide (h = "") then None else Some h
  | None => None
  end.

Inductive click := DeleteDuplicates | Cancel | CloseWindow.

(** What the user does: the folder picked in [filedialog.askdirectory] (empty
    when the dialog is dismissed) and the way the confirmation window is
    left. *)
Record user := User {
  askdirectory : string;
  confirm_click : click
}.

Section Program.
Context `{Sha256}.

(** [calculate_hash(filepath, block_size=65536)]: the digest of what the loop
    read, [None] when opening or reading raised an [IOError]. *)
Definition calculate_hash (filepath : string) (block_size : Z)
    : M (option string) :=
  try_except
    (f ← open_rb filepath;
     sha256 ← lift (read_blocks f block_size 0 []);
     ret (Some (hexdigest sha256)))
    is_OSError
    (fun _ => ret None).

(** The body of the inner loop of [find_duplicate_files], on the local
    variables [file_hashes] and [duplicates]. *)
Definition scan_file (file_path : string)
    (st : gmap string string * dict) : M (gmap string string * dict) :=
  let '(file_hashes, duplicates) := st in
  size ← os_path_getsize file_path;
  if size >? 0 then
    file_hash ← calculate_hash file_path default_block_size;
    match truthy file_hash with
    | Some file_hash =>
        match file_hashes !! file_hash with
        | Some first =>
            let duplicates :=
              match dict_get file_hash duplicates with
              | None => dict_set file_hash [first] duplicates
              | Some _ => duplicates
              end in
            paths ← dict_item file_hash duplicates;
            ret (file_hashes, dict_set file_hash (paths ++ [file_path]) duplicates)
        | None => ret (<[file_hash := file_path]> file_hashes, duplicates)
        end
    | None => ret st
    end
  else ret st.

(** The body of the outer loop, for one [(dirpath, _, filenames)] of the
    walk. *)
Definition scan_dir (entry : string * list string * list string)
    (st : gmap string string * dict) : M (gmap string string * dict) :=
  let '(dirpath, _, filenames) := entry in
  for_each filenames st
    (fun filename st => scan_file (os_path_join dirpath filename) st).

(** [find_duplicate_files(folder_path)] *)
Definition find_duplicate_files (folder_path : string) : M dict :=
  isdir ← os_path_isdir folder_path;
  if negb isdir then
    messagebox_showerror "Error"
      (Plain "The selected path is not a valid directory.");;
    ret []
  else
    entries ← os_walk folder_path;
    st ← for_each entries (∅, []) scan_dir;
    ret st.2.

Definition no_duplicates_found : message :=
  Plain "No duplicate files were found in the selected folder.".

(** The [try] block of [delete_duplicates] for one path, on the local
    variables [deleted_count] and [space_saved]. *)
Definition delete_file (duplicate_file : string) (st : Z * Z) : M (Z * Z) :=
  let '(deleted_count, space_saved) := st in
  try_except
    (file_size ← os_path_getsize duplicate_file;
     os_remove duplicate_file;;
     print ("Deleted: " +:+ duplicate_file);;
     ret (deleted_count + 1, space_saved + file_size))
    is_OSError
    (fun e =>
       messagebox_showerror "Error" (DeleteError duplicate_file e);;
       ret st).

(** The body of the outer loop of [delete_duplicates], for one item of the
    dictionary. *)
Definition delete_group (item : string * list string) (st : Z * Z)
    : M (Z * Z) :=
  let '(file_hash, file_paths) := item in
  original_file ← item0 file_paths;
  for_each (drop 1 file_paths) st delete_file.

(** [delete_duplicates(duplicates)] *)
Definition delete_duplicates (duplicates : dict) : M (Z * Z) :=
  match duplicates with
  | [] =>
      messagebox_showinfo "No Duplicates Found" no_duplicates_found;;
      ret (0, 0)
  | _ => for_each duplicates (0, 0) delete_group
  end.

(** The callbacks of the two buttons of the confirmation window.  The summary
    dialog is given the two totals; the text shows the bytes as megabytes. *)
Definition on_confirm (duplicates_found : dict) : M unit :=
  '(deleted_count, space_saved_bytes) ← delete_duplicates duplicates_found;
  messagebox_showinfo "Summary" (Summary deleted_count space_saved_bytes).

Definition on_cancel : M unit :=
  messagebox_showinfo "Cancelled" (Plain "No files were deleted.").

(** [main()]: the confirmation window lists the paths to delete and runs the
    callback of the button pressed, or none when the window is closed. *)
Definition main (u : user) : M unit :=
  let folder_to_scan := askdirectory u in
  if decide (folder_to_scan = "") then
    messagebox_showinfo "Cancelled"
      (Plain "No folder was selected. The operation has been cancelled.")
  else
    print ("Scanning for duplicate files in: " +:+ folder_to_scan);;
    duplicates_found ← find_duplicate_files folder_to_scan;
    match duplicates_found with
    | [] => messagebox_showinfo "No Duplicates Found" no_duplicates_found
    | _ =>
        let total_duplicates :=
          foldr Z.add 0
            (map (fun files => Z.of_nat (length files) - 1)
                 (map snd duplicates_found)) in
        tell (ConfirmWindow
                (Confirmation total_duplicates
                   (concat (map (fun item => drop 1 item.2) duplicates_found))));;
        match confirm_click u with
        | DeleteDuplicates => on_confirm duplicates_found
        | Cancel => on_cancel
        | CloseWindow => ret ()
        end
    end.

End Program.

(** * What the functions compute

    Functions of the file system alone that the runs of the program are
    compared with, and the notions the specification speaks of. *)

(** ** The Hasher and the scan *)

Section Functions.
Context `{Sha256}.

(** What [calculate_hash] returns for a path naming [n]. *)
Definition fingerprint (n : option node) (block_size : Z) : option string :=
  match open_node n with
  | Ok f =>
      match read_blocks f block_size 0 [] with
      | Ok data => Some (hexdigest data)
      | Raise _ => None
      end
  | Raise _ => None
  end.

(** What it is for a file to be unavailable to the Hasher: the path cannot
    be opened, or reading its blocks raises. *)
Definition unavailable (n : option node) (block_size : Z) : Prop :=
  match open_node n with
  | Raise _ => True
  | Ok f => exists e, read_blocks f block_size 0 [] = Raise e
  end.

(** What the loop body learns about a listed path: the exception of
    [os.path.getsize], or the fingerprint to file the path under, if any. *)
Definition observe (nd : gmap string node) (file_path : string)
    : result (option string) :=
  match stat_size (nd !! file_path) with
  | Raise e => Raise e
  | Ok size =>
      Ok (if size >? 0
          then truthy (fingerprint (nd !! file_path) default_block_size)
          else None)
  end.

(** The update of [file_hashes] and [duplicates] for a fingerprinted path. *)
Definition record_path (file_hash file_path : string)
    (st : gmap string string * dict) : gmap string string * dict :=
  match st.1 !! file_hash with
  | Some first =>
      let duplicates :=
        match dict_get file_hash st.2 with
        | None => dict_set file_hash [first] st.2
        | Some _ => st.2
        end in
      (st.1,
       dict_set file_hash
         (default [first] (dict_get file_hash st.2) ++ [file_path]) duplicates)
  | None => (<[file_hash := file_path]> st.1, st.2)
  end.

(** The update for a listed path, skipped when it has no fingerprint. *)
Definition record (o : option string) (file_path : string)
    (st : gmap string string * dict) : gmap string string * dict :=
  match o with
  | Some file_hash => record_path file_hash file_path st
  | None => st
  end.

(** The calls the loop body makes for a listed path. *)
Definition file_trace (nd : gmap string node) (file_path : string)
    : list event :=
  Sys (Getsize file_path) ::
  match stat_size (nd !! file_path) with
  | Ok size => if size >? 0 then [Sys (Open file_path)] else []
  | Raise _ => []
  end.

(** The two loops of [find_duplicate_files] over the listed paths: the local
    variables they end with, or the exception that leaves them. *)
Fixpoint scan_pure (nd : gmap string node) (files : list string)
    (st : gmap string string * dict) : result (gmap string string * dict) :=
  match files with
  | [] => Ok st
  | p :: files' =>
      match observe nd p with
      | Ok o => scan_pure nd files' (record o p st)
      | Raise e => Raise e
      end
  end.

(** The calls the two loops make. *)
Fixpoint scan_trace (nd : gmap string node) (files : list string)
    : list event :=
  match files with
  | [] => []
  | p :: files' =>
      file_trace nd p ++
      match observe nd p with
      | Ok _ => scan_trace nd files'
      | Raise _ => []
      end
  end.

(** The paths of the files a walk lists, in the order the loops visit them. *)
Definition walk_files (entries : list (string * list string * list string))
    : list string :=
  flat_map (fun entry => map (os_path_join entry.1.1) entry.2) entries.

(** The fingerprint a listed path is grouped under: the path names something
    of size greater than zero whose fingerprint is available. *)
Definition grouped_as (nd : gmap string node) (file_path : string)
    : option string :=
  match observe nd file_path with
  | Ok o => o
  | Raise _ => None
  end.

(** The grouped paths of a fingerprint, in discovery order. *)
Definition group_of (nd : gmap string node) (files : list string)
    (file_hash : string) : list string :=
  filter (fun p => grouped_as nd p = Some file_hash) files.

(** After the files [done], [file_hashes] holds the first grouped path of
    every fingerprint seen and [duplicates] the whole group of every
    fingerprint seen at least twice. *)
Record grouping (nd : gmap string node) (done : list string)
    (st : gmap string string * dict) : Prop := {
  grouping_first : forall h, st.1 !! h = head (group_of nd done h);
  grouping_groups : forall h,
    dict_get h st.2 =
    if decide (2 <= length (group_of nd done h))%nat
    then Some (group_of nd done h) else None;
  grouping_keys : NoDup st.2.*1
}.

End Functions.

(** The events of a scan are reads of the file system and the error dialog. *)
Definition scan_event (e : event) : Prop :=
  match e with
  | Sys (Isdir _) | Sys (Walk _) | Sys (Getsize _) | Sys (Open _)
  | ShowError _ _ => True
  | _ => False
  end.

(** ** The deletion phase *)

(** The paths [delete_duplicates] tries to delete: every path of every group
    but the first, in the order of the loops. *)
Definition targets (duplicates : dict) : list string :=
  flat_map (fun item => drop 1 item.2) duplicates.

(** The outcome of one deletion attempt on what a path names: the size read
    before the removal when both calls succeed. *)
Definition attempt (n : option node) : result Z :=
  match stat_size n with
  | Ok size => match can_remove n with Ok _ => Ok size | Raise e => Raise e end
  | Raise e => Raise e
  end.


(** The files deleted by attempting the paths [ps] one after the other, each
    with the size it had in the file system it was deleted from; a path whose
    attempt fails is left out. *)
Fixpoint deletions (nd : gmap string node) (ps : list string)
    : list (string * Z) :=
  match ps with
  | [] => []
  | p :: ps' =>
      match attempt (nd !! p) with
      | Ok size => (p, size) :: deletions (delete p nd) ps'
      | Raise _ => deletions nd ps'
      end
  end.

(** The sum of the sizes of deleted files. *)
Definition sum_sizes (l : list (string * Z)) : Z := foldr Z.add 0 l.*2.

(** The calls and the output of one deletion attempt. *)
Definition delete_trace (duplicate_file : string) (n : option node)
    : list event :=
  Sys (Getsize duplicate_file) ::
  match stat_size n with
  | Ok _ =>
      [Sys (Remove duplicate_file);
       match can_remove n with
       | Ok _ => Printed ("Deleted: " +:+ duplicate_file)
       | Raise e => ShowError "Error" (DeleteError duplicate_file e)
       end]
  | Raise e => [ShowError "Error" (DeleteError duplicate_file e)]
  end.

(** The file system left by attempting the paths [ps] in order. *)
Fixpoint remaining (nd : gmap string node) (ps : list string)
    : gmap string node :=
  match ps with
  | [] => nd
  | p :: ps' =>
      remaining (match attempt (nd !! p) with
                 | Ok _ => delete p nd
                 | Raise _ => nd
                 end) ps'
  end.



(** The calls and the output of the deletion attempts on the paths [ps], one
    after the other. *)
Fixpoint deletion_trace (nd : gmap string node) (ps : list string)
    : list event :=
  match ps with
  | [] => []
  | p :: ps' =>
      delete_trace p (nd !! p) ++
      deletion_trace (match attempt (nd !! p) with
                      | Ok _ => delete p nd
                      | Raise _ => nd
                      end) ps'
  end.



(** ** Files and results *)

(** A file whose every byte can be read. *)
Definition sound (f : file) : Prop :=
  forall k, bad_sector f = Some k -> (length (content f) <= k)%nat.

(** Whether a run returned. *)
Definition is_Ok {A} (r : result A) : bool :=
  match r with Ok _ => true | Raise _ => false end.

(** * smartbok.py: reading a document aloud

    The text functions of [smartbok.py], the dispatch of [read_file] and the
    script that speaks what was read.  The format libraries, the file system
    and the Unicode tables are taken as given. *)

Module Smartbok.

(** A Python [str], as the list of its characters. *)
Definition str : Type := list ascii.

Definition lit (s : string) : str := String.list_ascii_of_string s.

Definition nl : ascii := "010"%char.

(** [str.isspace], [str.isdigit] and [str.lower] on one character. *)
Class Unicode := {
  isspace : ascii -> bool;
  isdigit : ascii -> bool;
  lower : ascii -> ascii
}.

(** What a call into a library or the file system gives: a value, or an
    exception with its message [str(e)]. *)
Inductive outcome (A : Type) :=
| Returned (a : A)
| Raised (message : str).
Arguments Returned {A} a.
Arguments Raised {A} message.

(** The libraries behind the readers, each giving what the reader takes from
    it: the texts of the pages of a PDF, of the paragraphs of a DOCX file, of
    the shapes of each slide (a shape may have no text), of the documents of
    an EPUB book, and so on; [file_text] is [open(path, 'r').read()]. *)
Record libraries := Libraries {
  path_exists : str -> bool;
  path_suffix : str -> str;
  file_text : str -> outcome str;
  pdf_pages : str -> outcome (list str);
  docx_paragraphs : str -> outcome (list str);
  pptx_shapes : str -> outcome (list (list (option str)));
  image_text : str -> outcome str;
  epub_documents : str -> outcome (list str);
  html_text : str -> outcome str;
  office_text : str -> outcome str
}.

Inductive event :=
| Print (s : str)
| Say (chunk : str).

(** [s.startswith(prefix)] *)
Fixpoint startswith (s prefix : str) : bool :=
  match prefix, s with
  | [], _ => true
  | c :: prefix', d :: s' => bool_decide (c = d) && startswith s' prefix'
  | _ :: _, [] => false
  end.

(** [needle in s] *)
Fixpoint contains (needle s : str) : bool :=
  startswith s needle ||
  match s with
  | [] => false
  | _ :: s' => contains needle s'
  end.

(** [sep.join(l)] *)
Fixpoint join (sep : str) (l : list str) : str :=
  match l with
  | [] => []
  | [x] => x
  | x :: l' => x ++ sep ++ join sep l'
  end.

(** [s.strip(chars)], for the characters that satisfy [p]. *)
Fixpoint lstrip_with (p : ascii -> bool) (s : str) : str :=
  match s with
  | [] => []
  | c :: s' => if p c then lstrip_with p s' else s
  end.

Definition strip_with (p : ascii -> bool) (s : str) : str :=
  rev (lstrip_with p (rev (lstrip_with p s))).

(** [f.readlines()] on the text of a file: the lines, each with its newline,
    the last one without when the text does not end in one. *)
Fixpoint lines_from (line : str) (text : str) : list str :=
  match text with
  | [] => match line with [] => [] | _ => [rev line] end
  | c :: text' =>
      if bool_decide (c = nl) then rev (c :: line) :: lines_from [] text'
      else lines_from (c :: line) text'
  end.

Definition readlines (text : str) : list str := lines_from [] text.

(** [range(start, stop, step)] for a positive step: the numbers
    [start + step * i] below [stop]. *)
Definition range (start stop step : Z) : list Z :=
  if step >? 0
  then map (fun i => start + step * Z.of_nat i)
           (seq 0 (Z.to_nat ((stop - start + step - 1) / step)))
  else [].

(** [text[i:j]] for indices that are not negative. *)
Definition slice (text : str) (i j : Z) : str :=
  take (Z.to_nat (j - i)) (drop (Z.to_nat i) text).

Section Readers.
Context `{Unicode}.
Variable libs : libraries.

Definition strip (s : str) : str := strip_with isspace s.

(** [s.isdigit()]: not empty, and digits only. *)
Definition str_isdigit (s : str) : bool :=
  match s with
  | [] => false
  | _ => forallb isdigit s
  end.

Definition str_lower (s : str) : str := map lower s.

Definition nonempty (s : str) : bool :=
  match s with [] => false | _ => true end.

Definition read_pdf (file_path : str) : str :=
  match pdf_pages libs file_path with
  | Returned pages => join [nl] (List.filter nonempty pages)
  | Raised e => lit "Error reading PDF: " ++ e
  end.

Definition read_docx (file_path : str) : str :=
  match docx_paragraphs libs file_path with
  | Returned paragraphs =>
      join [nl] (List.filter (fun text => nonempty (strip text)) paragraphs)
  | Raised e => lit "Error reading DOCX: " ++ e
  end.

Definition read_pptx (file_path : str) : str :=
  match pptx_shapes libs file_path with
  | Returned slides => join [nl] (omap id (concat slides))
  | Raised e => lit "Error reading PPTX: " ++ e
  end.

Definition read_image (file_path : str) : str :=
  match image_text libs file_path with
  | Returned text => text
  | Raised e => lit "Error reading image: " ++ e
  end.

Definition read_epub (file_path : str) : str :=
  match epub_documents libs file_path with
  | Returned items => join [nl] items
  | Raised e => lit "Error reading EPUB: " ++ e
  end.

Definition read_html (file_path : str) : str :=
  match html_text libs file_path with
  | Returned text => text
  | Raised e => lit "Error reading HTML: " ++ e
  end.

Definition read_office (file_path : str) : str :=
  match office_text libs file_path with
  | Returned text => text
  | Raised e => lit "Error reading office file: " ++ e
  end.

Definition read_txt (file_path : str) : str :=
  match file_text libs file_path with
  | Returned text => text
  | Raised e => lit "Error reading TXT: " ++ e
  end.

(** The condition of the list comprehension of [read_srt]. *)
Definition is_dialogue (line : str) : bool :=
  nonempty (strip line) && negb (str_isdigit (strip line))
  && negb (contains (lit "-->") line).

Definition dialogue_lines (lines : list str) : list str :=
  map strip (List.filter is_dialogue lines).

Definition read_srt (file_path : str) : str :=
  match file_text libs file_path with
  | Returned text => join [nl] (dialogue_lines (readlines text))
  | Raised e => lit "Error reading SRT: " ++ e
  end.

Definition one_of (suffix : str) (suffixes : list string) : bool :=
  bool_decide (suffix ∈ map lit suffixes).

Definition read_file (file_path : str) : str :=
  if negb (path_exists libs file_path) then lit "File not found"
  else
    let suffix := str_lower (path_suffix libs file_path) in
    if one_of suffix [".pdf"] then read_pdf file_path
    else if one_of suffix [".docx"] then read_docx file_path
    else if one_of suffix [".pptx"] then read_pptx file_path
    else if one_of suffix [".doc"; ".xls"; ".xlsx"; ".odt"; ".ods"]
    then read_office file_path
    else if one_of suffix [".epub"] then read_epub file_path
    else if one_of suffix [".jpg"; ".jpeg"; ".png"; ".bmp"; ".tiff"; ".heic"]
    then read_image file_path
    else if one_of suffix [".html"; ".htm"] then read_html file_path
    else if one_of suffix [".csv"; ".json"; ".xml"] then read_txt file_path
    else if one_of suffix [".txt"; ".md"; ".rtf"] then read_txt file_path
    else if one_of suffix [".srt"] then read_srt file_path
    else lit "Unsupported file type: " ++ suffix.

(** The chunks [text_to_speech] hands to the engine. *)
Definition chunks (text : str) (max_chars : Z) : list str :=
  map (fun i => slice text i (i + 5000))
      (range 0 (Z.min (Z.of_nat (length text)) max_chars) 5000).

(** [text_to_speech(text, max_chars)], with the voices the engine has: what
    is printed and spoken, and the [IndexError] of [voices[0]] on an engine
    without voices. *)
Definition text_to_speech (voices : list str) (text : str) (max_chars : Z)
    : list event * option exn :=
  match voices with
  | [] => ([], Some IndexError)
  | _ =>
      (Print (lit "Preparing to speak...") ::
       map Say (chunks text max_chars) ++
       [Print (lit "Finished speaking.")],
       None)
  end.

(** The test of the script on what [read_file] returned. *)
Definition speakable (text : str) : bool :=
  nonempty text && negb (startswith text (lit "Unsupported"))
  && negb (startswith text (lit "Error")).

(** The path the script reads: the first argument, or the line typed in
    with its double quotes stripped. *)
Definition chosen_path (argv : list str) (input_line : str) : str :=
  match argv with
  | _ :: arg :: _ => arg
  | _ => strip_with (fun c => bool_decide (c = "034"%char)) input_line
  end.

(** The script: what it prints and speaks, and the exception it ends with,
    if any. *)
Definition script (voices : list str) (argv : list str) (input_line : str)
    : list event * option exn :=
  let file_path := chosen_path argv input_line in
  let reading := Print ([nl] ++ lit "Reading: " ++ file_path) in
  let text := read_file file_path in
  if speakable text then
    let '(spoken, raised) := text_to_speech voices text 20000 in
    (reading ::
     Print ([nl] ++ lit "First 500 characters:" ++ [nl]
            ++ slice text 0 500 ++ lit "..." ++ [nl]) :: spoken,
     raised)
  else ([reading; Print ([nl] ++ text)], None).

(** What each reader gives for a path, with whether its library returned. *)
Definition is_returned {A} (o : outcome A) : bool :=
  match o with Returned _ => true | Raised _ => false end.

Definition reads (file_path : str) : list (str * bool) :=
  [(read_pdf file_path, is_returned (pdf_pages libs file_path));
   (read_docx file_path, is_returned (docx_paragraphs libs file_path));
   (read_pptx file_path, is_returned (pptx_shapes libs file_path));
   (read_office file_path, is_returned (office_text libs file_path));
   (read_epub file_path, is_returned (epub_documents libs file_path));
   (read_image file_path, is_returned (image_text libs file_path));
   (read_html file_path, is_returned (html_text libs file_path));
   (read_txt file_path, is_returned (file_text libs file_path));
   (read_srt file_path, is_returned (file_text libs file_path))].

End Readers.

End Smartbok.

(** * upload_and_convert.py: uploading the documents of a folder

    The loop of the script and [upload_and_convert].  The Drive service, the
    listing of the folder, the opening of a document and the path functions
    of the platform are taken as given, each call returning or raising; the
    file of identifiers is taken to be writable, and the script is followed
    from the point where [get_drive_service] has returned. *)

Module Upload.

Definition str : Type := Smartbok.str.

(** [s.endswith(suffix)] *)
Definition endswith (s suffix : str) : bool :=
  Smartbok.startswith (rev s) (rev suffix).

(** What the script needs from its surroundings: [os.listdir],
    [os.path.join] and [os.path.basename]; [MediaFileUpload(file_path, ...)],
    which opens the file and raises when it cannot (a directory, a file that
    may not be read); and [files().create(...).execute()] of the service,
    which gives the identifier of the new document for a name and a path, or
    raises. *)
Record drive := Drive {
  listdir : str -> Smartbok.outcome (list str);
  path_join : str -> str -> str;
  basename : str -> str;
  media_file_upload : str -> Smartbok.outcome unit;
  create : str -> str -> Smartbok.outcome str
}.

Inductive event :=
| Created (file_name file_path : str)
| Print (s : str).

(** The state of a run: the content of [doc_ids.txt], and what was sent to
    the service and printed. *)
Record state := State {
  doc_ids : str;
  events : list event
}.

(** [upload_and_convert(service, file_path)] *)
Definition upload_and_convert (service : drive) (file_path : str) (st : state)
    : Smartbok.outcome str * state :=
  let file_name := basename service file_path in
  match media_file_upload service file_path with
  | Smartbok.Raised e => (Smartbok.Raised e, st)
  | Smartbok.Returned media =>
      let sent :=
        State (doc_ids st) (events st ++ [Created file_name file_path]) in
      match create service file_name file_path with
      | Smartbok.Returned id =>
          (Smartbok.Returned id,
           State (doc_ids sent)
             (events sent ++
                [Print (Smartbok.lit "Uploaded & converted: " ++ file_name
                        ++ Smartbok.lit " (ID: " ++ id ++ Smartbok.lit ")")]))
      | Smartbok.Raised e => (Smartbok.Raised e, sent)
      end
  end.

(** The loop over the names [os.listdir] gave: the state it ends in, and the
    message of the exception that left it, if any. *)
Fixpoint upload_each (service : drive) (docx_folder : str)
    (filenames : list str) (st : state) : state * option str :=
  match filenames with
  | [] => (st, None)
  | filename :: filenames' =>
      if endswith filename (Smartbok.lit ".docx") then
        let file_path := path_join service docx_folder filename in
        match upload_and_convert service file_path st with
        | (Smartbok.Returned google_docs_id, st') =>
            upload_each service docx_folder filenames'
              (State (doc_ids st' ++ google_docs_id ++ [Smartbok.nl])
                 (events st'))
        | (Smartbok.Raised e, st') => (st', Some e)
        end
      else upload_each service docx_folder filenames' st
  end.

(** The script once it has its service: [doc_ids.txt] is emptied, the folder
    is listed and its names are gone through. *)
Definition script (service : drive) (docx_folder : str) (st : state)
    : state * option str :=
  let emptied := State [] (events st) in
  match listdir service docx_folder with
  | Smartbok.Returned filenames =>
      upload_each service docx_folder filenames emptied
  | Smartbok.Raised e => (emptied, Some e)
  end.

(** The identifier the service gives a listed name, when the file can be
    opened and the service gives one. *)
Definition id_of (service : drive) (docx_folder filename : str) : option str :=
  let file_path := path_join service docx_folder filename in
  match media_file_upload service file_path with
  | Smartbok.Returned _ =>
      match create service (basename service file_path) file_path with
      | Smartbok.Returned id => Some id
      | Smartbok.Raised _ => None
      end
  | Smartbok.Raised _ => None
  end.

(** The listed names the script uploads. *)
Definition documents (filenames : list str) : list str :=
  List.filter (fun filename => endswith filename (Smartbok.lit ".docx"))
    filenames.

(** The paths sent to the service, in order. *)
Definition sent_paths (evs : list event) : list str :=
  omap (fun e => match e with Created _ file_path => Some file_path
                            | Print _ => None end) evs.

(** How the loop was left on the document [n], after [uploaded]: the file
    could not be opened and nothing was sent for it, or it was sent and the
    service raised. *)
Definition left_on (service : drive) (docx_folder : str) (e : str)
    (uploaded : list str) (n : str) (sent_before sent : list str) : Prop :=
  let file_path := path_join service docx_folder n in
  (media_file_upload service file_path = Smartbok.Raised e /\
   sent = sent_before ++ map (path_join service docx_folder) uploaded) \/
  (media_file_upload service file_path = Smartbok.Returned tt /\
   create service (basename service file_path) file_path = Smartbok.Raised e /\
   sent = sent_before
          ++ map (path_join service docx_folder) (uploaded ++ [n])).

End Upload.

(** * A small file system to run the functions on *)

(** A stand-in for SHA-256 on examples: the bytes in hexadecimal, cut or
    padded to 64 characters. *)
Definition hex_digit (n : N) : ascii :=
  match n with
  | 0%N => "0" | 1%N => "1" | 2%N => "2" | 3%N => "3" | 4%N => "4"
  | 5%N => "5" | 6%N => "6" | 7%N => "7" | 8%N => "8" | 9%N => "9"
  | 10%N => "a" | 11%N => "b" | 12%N => "c" | 13%N => "d" | 14%N => "e"
  | _ => "f"
  end%char.

Fixpoint hex_of_bytes (data : list byte) : string :=
  match data with
  | [] => ""
  | b :: data' =>
      let n := Byte.to_N b in
      String (hex_digit (n / 16)) (String (hex_digit (n mod 16))
        (hex_of_bytes data'))
  end.

(** The first [n] characters of [s], with zeros after a shorter [s]. *)
Fixpoint pad_to (n : nat) (s : string) : string :=
  match n with
  | O => ""
  | S n' =>
      match s with
      | "" => String "0" (pad_to n' "")
      | String c s' => String c (pad_to n' s')
      end
  end.

Fixpoint pad_to_length (n : nat) (s : string)
    : String.length (pad_to n s) = n :=
  match n with
  | O => eq_refl
  | S n' =>
      match s with
      | "" => f_equal S (pad_to_length n' "")
      | String c s' => f_equal S (pad_to_length n' s')
      end
  end.

#[local] Instance hex_sha256 : Sha256 := {|
  hexdigest data := pad_to 64 (hex_of_bytes data);
  hexdigest_length data := pad_to_length 64 (hex_of_bytes data)
|}.

(** What [os.walk] yields for a directory without subdirectories. *)
Definition listing (top : string) (filenames : list string)
    : string -> list (string * list string * list string) :=
  fun t => if decide (t = top) then [(top, [], filenames)] else [].

Definition plain_file (data : list byte) : node :=
  Regular (File data true None true).

(** The directory of the specification's scenario: [A] and [B] hold "x", [C]
    holds "y" and [D] is empty. *)
Definition scenario : world :=
  World
    (list_to_map
       [("/d", Directory 4096);
        ("/d/A", plain_file ["x"%byte]);
        ("/d/B", plain_file ["x"%byte]);
        ("/d/C", plain_file ["y"%byte]);
        ("/d/D", plain_file [])])
    (listing "/d" ["A"; "B"; "C"; "D"])
    [].

(** The same directory without [B] and [D]: no content is repeated. *)
Definition unique : world :=
  World
    (list_to_map
       [("/d", Directory 4096);
        ("/d/A", plain_file ["x"%byte]);
        ("/d/C", plain_file ["y"%byte])])
    (listing "/d" ["A"; "C"])
    [].

(** Four files with the same content: [B] may not be opened, a byte of [C]
    cannot be read, [A] and [E] are fine. *)
Definition damaged : world :=
  World
    (list_to_map
       [("/d", Directory 4096);
        ("/d/A", plain_file ["x"%byte]);
        ("/d/B", Regular (File ["x"%byte] false None true));
        ("/d/C", Regular (File ["x"%byte] true (Some 0%nat) true));
        ("/d/E", plain_file ["x"%byte])])
    (listing "/d" ["A"; "B"; "C"; "E"])
    [].

(** A directory whose first entry is a dangling symbolic link, followed by
    two files with the same content. *)
Definition dangling : world :=
  World
    (list_to_map
       [("/d", Directory 4096);
        ("/d/ghost", DanglingLink);
        ("/d/A", plain_file ["x"%byte]);
        ("/d/B", plain_file ["x"%byte])])
    (listing "/d" ["ghost"; "A"; "B"])
    [].

(** Two files with the same content and, between them in the listing, an
    entry the user may not reach. *)
Definition guarded : world :=
  World
    (list_to_map
       [("/d", Directory 4096);
        ("/d/A", plain_file ["x"%byte]);
        ("/d/secret", Inaccessible EACCES);
        ("/d/B", plain_file ["x"%byte])])
    (listing "/d" ["A"; "secret"; "B"])
    [].


(** The dictionary the scan of the scenario returns. *)
Definition scenario_duplicates : dict :=
  [(hexdigest ["x"%byte], ["/d/A"; "/d/B"])].

(** ** A shelf of files for smartbok.py *)

(** [str.isspace], [str.isdigit] and [str.lower] on the characters below
    256: the white space is tab to carriage return, the four separators
    [0x1c] to [0x1f], the space, [0x85] and the no-break space; the digits
    are [0] to [9] and the superscripts one, two and three; the capital
    letters are [A] to [Z] and [0xc0] to [0xde] without the multiplication
    sign. *)
Definition ascii_isspace (c : ascii) : bool :=
  let n := N_of_ascii c in
  ((9 <=? n) && (n <=? 13) || (28 <=? n) && (n <=? 32)
   || (n =? 133) || (n =? 160))%N.

Definition ascii_isdigit (c : ascii) : bool :=
  let n := N_of_ascii c in
  ((48 <=? n) && (n <=? 57) || (n =? 178) || (n =? 179) || (n =? 185))%N.

Definition ascii_lower (c : ascii) : ascii :=
  let n := N_of_ascii c in
  if ((65 <=? n) && (n <=? 90)
      || (192 <=? n) && (n <=? 222) && negb (n =? 215))%N
  then ascii_of_N (n + 32) else c.

Definition ascii_unicode : Smartbok.Unicode :=
  Smartbok.Build_Unicode ascii_isspace ascii_isdigit ascii_lower.

(** One text file, [notes.TXT], and no library that works. *)
Definition shelf : Smartbok.libraries :=
  let missing {A} : Smartbok.outcome A :=
    Smartbok.Raised (Smartbok.lit "No module") in
  Smartbok.Libraries
    (fun p => bool_decide (p = Smartbok.lit "notes.TXT"))
    (fun p => if bool_decide (p = Smartbok.lit "notes.TXT")
              then Smartbok.lit ".TXT" else [])
    (fun p => if bool_decide (p = Smartbok.lit "notes.TXT")
              then Smartbok.Returned (Smartbok.lit "Hello")
              else Smartbok.Raised (Smartbok.lit "No such file"))
    (fun _ => missing) (fun _ => missing) (fun _ => missing)
    (fun _ => missing) (fun _ => missing) (fun _ => missing)
    (fun _ => missing).

(** The lines of a subtitle file with one cue. *)
Definition subtitles : list Smartbok.str :=
  Smartbok.readlines
    (Smartbok.lit "1" ++ [Smartbok.nl]
     ++ Smartbok.lit "00:00:01,000 --> 00:00:02,000" ++ [Smartbok.nl]
     ++ Smartbok.lit "  Hello there " ++ [Smartbok.nl]
     ++ [Smartbok.nl]).

(** ** A Drive for upload_and_convert.py *)

Definition backslash : ascii := "092"%char.

(** The part of a path after its last backslash. *)
Fixpoint last_component (name path : Smartbok.str) : Smartbok.str :=
  match path with
  | [] => rev name
  | c :: path' =>
      if bool_decide (c = backslash) then last_component [] path'
      else last_component (c :: name) path'
  end.

(** A folder that holds two documents, a text file, and a directory whose
    name ends in [.docx]; a service that gives a name the identifier [id-]
    followed by the name. *)
Definition office_drive : Upload.drive :=
  Upload.Drive
    (fun folder =>
       if bool_decide (folder = Smartbok.lit "G:")
       then Smartbok.Returned
              [Smartbok.lit "a.docx"; Smartbok.lit "notes.txt";
               Smartbok.lit "b.docx"]
       else if bool_decide (folder = Smartbok.lit "H:")
       then Smartbok.Returned
              [Smartbok.lit "a.docx"; Smartbok.lit "folder.docx";
               Smartbok.lit "b.docx"]
       else Smartbok.Raised (Smartbok.lit "No such file or directory"))
    (fun folder name => folder ++ [backslash] ++ name)
    (last_component [])
    (fun file_path =>
       if bool_decide (last_component [] file_path
                       = Smartbok.lit "folder.docx")
       then Smartbok.Raised (Smartbok.lit "Is a directory")
       else Smartbok.Returned tt)
    (fun file_name _ => Smartbok.Returned (Smartbok.lit "id-" ++ file_name)).

(** * Properties *)

(** ** Reading a file block by block *)

Lemma read_blocks_step f block_size pos sha256 :
  read_blocks f block_size pos sha256 =
  match f_read f pos block_size with
  | Raise e => Raise e
  | Ok [] => Ok sha256
  | Ok (b :: data) =>
      read_blocks f block_size (pos + S (length data)) (sha256 ++ b :: data)
  end.
Proof.
  funelim (read_blocks f block_size pos sha256);
    match goal with Hr : f_read _ _ _ = _ |- _ => by rewrite Hr end.
Qed.

Lemma f_read_sound f pos size :
  sound f ->
  f_read f pos size =
  Ok (if size <? 0 then drop pos (content f)
      else take (Z.to_nat size) (drop pos (content f))).
Proof.
  intros Hs. unfold f_read.
  destruct (bad_sector f) as [k|] eqn:Hk; [|done].
  specialize (Hs k Hk).
  case_decide as Hc; [|done]. exfalso.
  destruct Hc as [Hle Hlt]. revert Hlt.
  destruct (size <? 0); rewrite ?length_take, length_drop; lia.
Qed.

(** With a block size other than zero the loop feeds the hasher every byte
    from the current position to the end of the file. *)
Lemma read_blocks_sound f block_size :
  sound f -> block_size <> 0 ->
  forall n pos sha256, (length (content f) - pos <= n)%nat ->
  read_blocks f block_size pos sha256 = Ok (sha256 ++ drop pos (content f)).
Proof.
  intros Hs Hbs n. induction n as [|n IH]; intros pos sha256 Hn;
    rewrite read_blocks_step, f_read_sound by done.
  - rewrite (drop_ge (content f) pos) by lia.
    rewrite take_nil, app_nil_r. by destruct (block_size <? 0).
  - destruct (drop pos (content f)) as [|b rest] eqn:Hd.
    { rewrite take_nil, app_nil_r. by destruct (block_size <? 0). }
    assert (Hlen : (S (length rest) = length (content f) - pos)%nat).
    { rewrite <- length_drop, Hd. done. }
    destruct (block_size <? 0) eqn:Hneg.
    + rewrite IH by lia. rewrite (drop_ge (content f)) by lia.
      by rewrite app_nil_r.
    + assert (Hpos : exists m, Z.to_nat block_size = S m).
      { exists (Nat.pred (Z.to_nat block_size)). apply Z.ltb_ge in Hneg. lia. }
      destruct Hpos as [m ->]. cbn [take].
      rewrite IH by (rewrite length_take; lia).
      rewrite <- drop_drop, Hd. cbn [drop].
      f_equal. rewrite <- app_assoc. cbn. do 2 f_equal.
      destruct (decide (m <= length rest)%nat).
      * rewrite length_take, Nat.min_l by done. apply take_drop.
      * rewrite take_ge by lia. rewrite drop_all. apply app_nil_r.
Qed.

(** A byte that cannot be read makes the loop raise, whatever the block
    size is (other than zero). *)
Lemma read_blocks_bad f block_size k :
  bad_sector f = Some k -> (k < length (content f))%nat -> block_size <> 0 ->
  forall n pos sha256, (length (content f) - pos <= n)%nat -> (pos <= k)%nat ->
  read_blocks f block_size pos sha256 = Raise (OSError EIO).
Proof.
  intros Hk Hlt Hbs n. induction n as [|n IH]; intros pos sha256 Hn Hle;
    [lia|].
  rewrite read_blocks_step. unfold f_read. rewrite Hk.
  set (data := if block_size <? 0 then drop pos (content f)
               else take (Z.to_nat block_size) (drop pos (content f))).
  case_decide as Hc; [done|].
  assert (Hdata : (0 < length data <= length (content f) - pos)%nat).
  { subst data. destruct (block_size <? 0) eqn:Hneg;
      rewrite ?length_take, length_drop; [lia|].
    apply Z.ltb_ge in Hneg. lia. }
  destruct data as [|b data]; [simpl in Hdata; lia|].
  simpl in Hdata, Hc. apply IH; lia.
Qed.

(** The loop raises nothing but an [OSError]. *)
Lemma read_blocks_raise f block_size pos sha256 e :
  read_blocks f block_size pos sha256 = Raise e -> is_OSError e = true.
Proof.
  funelim (read_blocks f block_size pos sha256); intros Hr; try done.
  - eauto.
  - injection Hr as <-.
    match goal with Hf : f_read _ _ _ = Raise _ |- _ =>
      clear -Hf; unfold f_read in Hf;
      destruct (bad_sector f); [case_decide|]; by simplify_eq
    end.
Qed.

(** With a block size of zero the first read returns nothing and no byte
    reaches the hasher. *)
Lemma read_blocks_zero f sha256 : read_blocks f 0 0 sha256 = Ok sha256.
Proof.
  rewrite read_blocks_step. unfold f_read. simpl.
  by destruct (bad_sector f).
Qed.

(** ** Dictionaries *)

Lemma dict_get_set k k' v d :
  dict_get k' (dict_set k v d) =
  if decide (k = k') then Some v else dict_get k' d.
Proof.
  induction d as [|[k0 v0] d IH]; simpl.
  - destruct (decide (k' = k)), (decide (k = k')); congruence.
  - destruct (decide (k = k0)) as [->|Hne]; simpl.
    + destruct (decide (k' = k0)), (decide (k0 = k')); congruence.
    + rewrite IH. destruct (decide (k' = k0)), (decide (k = k')); congruence.
Qed.

Lemma dict_get_None k d : dict_get k d = None <-> k ∉ d.*1.
Proof.
  induction d as [|[k0 v0] d IH]; cbn [dict_get].
  - split; [intros _; apply not_elem_of_nil | done].
  - rewrite fmap_cons, not_elem_of_cons. cbn [fst].
    destruct (decide (k = k0)); [|tauto].
    split; [done | by intros [? _]].
Qed.

Lemma dict_get_elem_of k v d :
  NoDup d.*1 -> (k, v) ∈ d <-> dict_get k d = Some v.
Proof.
  induction d as [|[k0 v0] d IH]; cbn [dict_get]; intros Hnd.
  - split; [by intros ?%elem_of_nil | done].
  - rewrite fmap_cons in Hnd. cbn [fst] in Hnd.
    apply NoDup_cons in Hnd as [Hk0 Hnd]. rewrite elem_of_cons, IH by done.
    destruct (decide (k = k0)) as [->|Hne].
    + split; [intros [?|Hg]; [by simplify_eq|] | intros ?; left; by simplify_eq].
      exfalso. apply Hk0, dec_stable. intros Hn%dict_get_None. congruence.
    + split; [intros [?|?]; [by simplify_eq | done] | by right].
Qed.

Lemma dict_set_keys k v d :
  (dict_set k v d).*1 =
  match dict_get k d with Some _ => d.*1 | None => d.*1 ++ [k] end.
Proof.
  induction d as [|[k0 v0] d IH]; [done|]. cbn [dict_set dict_get].
  destruct (decide (k = k0)) as [->|Hne]; [done|].
  rewrite !fmap_cons, IH. by destruct (dict_get k d).
Qed.

Lemma dict_set_NoDup k v d : NoDup d.*1 -> NoDup (dict_set k v d).*1.
Proof.
  intros Hnd. rewrite dict_set_keys.
  destruct (dict_get k d) eqn:Hg; [done|].
  apply NoDup_app; split_and!; [done | | apply NoDup_singleton].
  intros x Hx ->%list_elem_of_singleton. by apply dict_get_None in Hg.
Qed.

(** ** Runs of the monad *)

Lemma world_eta w : World (nodes w) (tree w) (log w) = w.
Proof. by destruct w. Qed.

Ltac run :=
  unfold print, messagebox_showerror, messagebox_showinfo;
  unfold mbind, M_bind, bind, ret, raise, lift, tell, try_except,
    lookup_node, lookup_tree, drop_node;
  cbn [nodes tree log emit unlink fst snd].

Lemma emit_emit e1 e2 w :
  emit e2 (emit e1 w) = World (nodes w) (tree w) (log w ++ [e1; e2]).
Proof. unfold emit. cbn. by rewrite <- app_assoc. Qed.

Lemma open_node_raise n e : open_node n = Raise e -> is_OSError e = true.
Proof.
  destruct n as [[f| | |err]|]; simpl; [destruct (readable f)|..];
    by intros; simplify_eq.
Qed.

Lemma stat_size_raise n e : stat_size n = Raise e -> is_OSError e = true.
Proof. destruct n as [[f| | |err]|]; simpl; by intros; simplify_eq. Qed.

Lemma can_remove_raise n e : can_remove n = Raise e -> is_OSError e = true.
Proof.
  destruct n as [[f| | |err]|]; simpl; [destruct (removable f)|..];
    by intros; simplify_eq.
Qed.

Lemma for_each_app {A S} (l1 l2 : list A) (s : S) body w :
  for_each (l1 ++ l2) s body w =
  match for_each l1 s body w with
  | (Ok s', w') => for_each l2 s' body w'
  | (Raise e, w') => (Raise e, w')
  end.
Proof.
  revert s w; induction l1 as [|x l1 IH]; intros s w; simpl; [done|].
  run. destruct (body x s w) as [[s'|e] w']; [apply IH | done].
Qed.

Lemma for_each_map {A B S} (g : A -> B) (l : list A) (s : S) body w :
  for_each (map g l) s body w = for_each l s (fun x => body (g x)) w.
Proof.
  revert s w; induction l as [|x l IH]; intros s w; simpl; [done|].
  run. by destruct (body (g x) s w) as [[s'|e] w'].
Qed.

Section Runs.
Context `{Sha256}.

Lemma calculate_hash_run filepath block_size w :
  calculate_hash filepath block_size w =
  (Ok (fingerprint (nodes w !! filepath) block_size),
   emit (Sys (Open filepath)) w).
Proof.
  unfold calculate_hash, open_rb, fingerprint. run.
  destruct (open_node _) as [f|e] eqn:Hopen.
  - destruct (read_blocks _ _ _ _) as [data|e] eqn:Hread; [done|].
    by rewrite (read_blocks_raise _ _ _ _ _ Hread).
  - by rewrite (open_node_raise _ _ Hopen).
Qed.

Lemma truthy_hexdigest data : truthy (Some (hexdigest data)) = Some (hexdigest data).
Proof.
  unfold truthy. case_decide as Heq; [|done].
  pose proof (hexdigest_length data) as Hlen. by rewrite Heq in Hlen.
Qed.

Lemma truthy_fingerprint n block_size :
  truthy (fingerprint n block_size) = fingerprint n block_size.
Proof.
  unfold fingerprint. destruct (open_node n); [|done].
  destruct (read_blocks _ _ _ _); [apply truthy_hexdigest | done].
Qed.

End Runs.

(** ** The scan as a function of the file system *)

Section Scan.
Context `{Sha256}.

Lemma scan_file_run file_path st w :
  scan_file file_path st w =
  (match observe (nodes w) file_path with
   | Ok o => Ok (record o file_path st)
   | Raise e => Raise e
   end,
   World (nodes w) (tree w) (log w ++ file_trace (nodes w) file_path)).
Proof.
  destruct st as [file_hashes duplicates].
  unfold scan_file, os_path_getsize, observe, file_trace. run.
  destruct (stat_size _) as [size|e]; [|done].
  destruct (size >? 0); [|done].
  rewrite calculate_hash_run. cbn [nodes].
  rewrite emit_emit.
  destruct (truthy _) as [h|]; [|done]. unfold record, record_path. cbn [fst snd].
  destruct (file_hashes !! h) as [first|]; [|done].
  unfold dict_item.
  destruct (dict_get h duplicates) as [paths|] eqn:Hget; cbn [default].
  - by rewrite Hget.
  - rewrite dict_get_set. by rewrite decide_True.
Qed.

Lemma scan_files_run files st w :
  for_each files st scan_file w =
  (scan_pure (nodes w) files st,
   World (nodes w) (tree w) (log w ++ scan_trace (nodes w) files)).
Proof.
  revert st w; induction files as [|p files IH]; intros st w; simpl.
  - run. by rewrite app_nil_r, world_eta.
  - run. rewrite scan_file_run.
    destruct (observe (nodes w) p) as [o|e].
    + rewrite IH. cbn [nodes tree log]. by rewrite <- app_assoc.
    + by rewrite app_nil_r.
Qed.

Lemma scan_dirs_run entries st w :
  for_each entries st scan_dir w =
  for_each (walk_files entries) st scan_file w.
Proof.
  revert st w; induction entries as [|[[dirpath dirnames] filenames] entries IH];
    intros st w; [done|].
  cbn [for_each walk_files flat_map]. rewrite for_each_app. run.
  unfold scan_dir at 1. cbn [fst snd]. rewrite for_each_map.
  destruct (for_each filenames st _ w) as [[st'|e] w']; [apply IH | done].
Qed.

(** [find_duplicate_files] on a directory, in one equation. *)
Lemma find_duplicate_files_run folder_path w sz :
  nodes w !! folder_path = Some (Directory sz) ->
  find_duplicate_files folder_path w =
  (match scan_pure (nodes w) (walk_files (tree w folder_path)) (∅, []) with
   | Ok st => Ok st.2
   | Raise e => Raise e
   end,
   World (nodes w) (tree w)
     (log w ++ Sys (Isdir folder_path) :: Sys (Walk folder_path) ::
        scan_trace (nodes w) (walk_files (tree w folder_path)))).
Proof.
  intros Hdir. unfold find_duplicate_files, os_path_isdir, os_walk. run.
  rewrite Hdir. cbn [negb]. rewrite scan_dirs_run, scan_files_run, emit_emit.
  cbn [nodes tree log]. rewrite <- !app_assoc. cbn [app].
  by destruct (scan_pure _ _ _).
Qed.

(** On anything else the error dialog is the only thing that happens. *)
Lemma find_duplicate_files_invalid folder_path w :
  (forall sz, nodes w !! folder_path <> Some (Directory sz)) ->
  find_duplicate_files folder_path w =
  (Ok [],
   World (nodes w) (tree w)
     (log w ++ [Sys (Isdir folder_path);
                ShowError "Error"
                  (Plain "The selected path is not a valid directory.")])).
Proof.
  intros Hdir. unfold find_duplicate_files, os_path_isdir. run.
  destruct (nodes w !! folder_path) as [[f|sz| |err]|] eqn:Hn;
    cbn [negb]; rewrite ?emit_emit; try done.
  by destruct (Hdir sz).
Qed.

End Scan.

(** ** The grouping invariant *)

Section Grouping.
Context `{Sha256}.

Lemma group_of_snoc nd done p h :
  group_of nd (done ++ [p]) h =
  group_of nd done h ++ (if decide (grouped_as nd p = Some h) then [p] else []).
Proof.
  unfold group_of. by rewrite filter_app.
Qed.

Lemma grouping_init nd : grouping nd [] (∅, []).
Proof. split; [done | done | apply NoDup_nil_2]. Qed.

Lemma grouping_skip nd done p st :
  grouping nd done st -> grouped_as nd p = None -> grouping nd (done ++ [p]) st.
Proof.
  intros [Hf Hg Hk] Hp.
  assert (Heq : forall h, group_of nd (done ++ [p]) h = group_of nd done h).
  { intros h. rewrite group_of_snoc, decide_False by congruence.
    apply app_nil_r. }
  split; [| |done]; intros h; by rewrite Heq.
Qed.

Lemma grouping_record nd done p h st :
  grouping nd done st -> grouped_as nd p = Some h ->
  grouping nd (done ++ [p]) (record_path h p st).
Proof.
  intros [Hf Hg Hk] Hp. destruct st as [fh d]. cbn [fst snd] in *.
  assert (Hsame : group_of nd (done ++ [p]) h = group_of nd done h ++ [p]).
  { by rewrite group_of_snoc, decide_True. }
  assert (Hother : forall h', h <> h' ->
            group_of nd (done ++ [p]) h' = group_of nd done h').
  { intros h' Hne. rewrite group_of_snoc, decide_False by congruence.
    apply app_nil_r. }
  unfold record_path. cbn [fst snd].
  pose proof (Hf h) as Hfh. pose proof (Hg h) as Hgh.
  destruct (fh !! h) as [first|] eqn:Hlook.
  - (* the fingerprint has been seen: the path joins its group *)
    destruct (group_of nd done h) as [|first' rest] eqn:Hgroup; [done|].
    injection Hfh as <-.
    assert (Hpaths : default [first] (dict_get h d) = first :: rest).
    { rewrite Hgh. case_decide as Hlen; [done|].
      destruct rest; [done | simpl in Hlen; lia]. }
    split; cbn [fst snd].
    + intros h'. destruct (decide (h = h')) as [<-|Hne].
      * by rewrite Hsame, Hlook.
      * by rewrite Hother, Hf.
    + intros h'. rewrite dict_get_set.
      destruct (decide (h = h')) as [<-|Hne].
      * rewrite Hsame, Hpaths, decide_True; [done|].
        rewrite length_app. simpl. lia.
      * rewrite Hother by done. rewrite <- Hg.
        destruct (dict_get h d); [done|].
        rewrite dict_get_set. by rewrite decide_False.
    + apply dict_set_NoDup. destruct (dict_get h d); [done|].
      by apply dict_set_NoDup.
  - (* a new fingerprint: the path becomes its original *)
    destruct (group_of nd done h) as [|first' rest] eqn:Hgroup; [|done].
    split; cbn [fst snd]; [| |done].
    + intros h'. destruct (decide (h = h')) as [<-|Hne].
      * by rewrite lookup_insert_eq, Hsame.
      * by rewrite lookup_insert_ne, Hother, Hf.
    + intros h'. destruct (decide (h = h')) as [<-|Hne].
      * rewrite Hsame, Hgh. by rewrite !decide_False by (simpl; lia).
      * by rewrite Hother, Hg.
Qed.

Lemma scan_pure_grouping nd rest : forall done st st',
  grouping nd done st -> scan_pure nd rest st = Ok st' ->
  grouping nd (done ++ rest) st'.
Proof.
  induction rest as [|p rest IH]; intros done st st' Hinv Hscan; simpl in Hscan.
  - rewrite app_nil_r. by simplify_eq.
  - destruct (observe nd p) as [o|e] eqn:Hobs; [|done].
    replace (done ++ p :: rest) with ((done ++ [p]) ++ rest)
      by (by rewrite <- app_assoc).
    eapply IH; [|done].
    assert (Hgrouped : grouped_as nd p = o).
    { unfold grouped_as. by rewrite Hobs. }
    destruct o as [h|]; [by apply grouping_record | by apply grouping_skip].
Qed.

(** The scan returns whenever the size of every listed file can be read, and
    raises the [OSError] of [os.path.getsize] otherwise. *)
Lemma scan_pure_total nd files st :
  Forall (fun p => exists sz, stat_size (nd !! p) = Ok sz) files ->
  exists st', scan_pure nd files st = Ok st'.
Proof.
  intros Hall; revert st; induction Hall as [|p files [sz Hsz] _ IH];
    intros st; simpl; [by eexists|].
  unfold observe. rewrite Hsz. apply IH.
Qed.

Lemma scan_pure_returns nd files st st' :
  scan_pure nd files st = Ok st' ->
  Forall (fun p => exists sz, stat_size (nd !! p) = Ok sz) files.
Proof.
  revert st; induction files as [|p files IH]; intros st Hscan; [done|].
  simpl in Hscan. unfold observe in Hscan.
  destruct (stat_size (nd !! p)) as [sz|e] eqn:Hsz; [|done].
  constructor; [by eexists | by eapply IH].
Qed.

Lemma scan_pure_raise nd files st e :
  scan_pure nd files st = Raise e -> is_OSError e = true.
Proof.
  revert st; induction files as [|p files IH]; intros st Hscan; [done|].
  simpl in Hscan. unfold observe in Hscan.
  destruct (stat_size (nd !! p)) as [sz|e'] eqn:Hsz; [by eapply IH|].
  simplify_eq. by eapply stat_size_raise.
Qed.

Lemma grouped_as_size nd p h :
  grouped_as nd p = Some h ->
  exists sz, stat_size (nd !! p) = Ok sz /\ 0 < sz.
Proof.
  unfold grouped_as, observe. destruct (stat_size _) as [sz|]; [|done].
  destruct (sz >? 0) eqn:Hpos; [|done]. intros _. exists sz. split; [done|lia].
Qed.

Lemma grouped_as_fingerprint nd p h :
  grouped_as nd p = Some h ->
  fingerprint (nd !! p) default_block_size = Some h.
Proof.
  unfold grouped_as, observe. destruct (stat_size _) as [sz|]; [|done].
  destruct (sz >? 0); [|done]. by rewrite truthy_fingerprint.
Qed.

End Grouping.

(** ** The deletion phase as a function of the file system *)

Lemma delete_file_run duplicate_file deleted_count space_saved w :
  delete_file duplicate_file (deleted_count, space_saved) w =
  let n := nodes w !! duplicate_file in
  (Ok match attempt n with
      | Ok size => (deleted_count + 1, space_saved + size)
      | Raise _ => (deleted_count, space_saved)
      end,
   World (match attempt n with
          | Ok _ => delete duplicate_file (nodes w)
          | Raise _ => nodes w
          end)
         (tree w) (log w ++ delete_trace duplicate_file n)).
Proof.
  unfold delete_file, os_path_getsize, os_remove, attempt, delete_trace. run.
  destruct (stat_size _) as [size|e] eqn:Hstat.
  - destruct (can_remove _) as [[]|e] eqn:Hrm; cbn [is_OSError].
    + unfold emit, unlink. cbn. by rewrite <- !app_assoc.
    + rewrite (can_remove_raise _ _ Hrm).
      unfold emit. cbn. by rewrite <- !app_assoc.
  - rewrite (stat_size_raise _ _ Hstat).
    unfold emit. cbn. by rewrite <- !app_assoc.
Qed.





Lemma delete_group_run file_hash original_file rest st w :
  delete_group (file_hash, original_file :: rest) st w =
  for_each rest st delete_file w.
Proof. unfold delete_group. cbn [item0 drop]. by run. Qed.

Lemma delete_groups_run duplicates : forall st w,
  Forall (fun item => item.2 <> []) duplicates ->
  for_each duplicates st delete_group w =
  for_each (targets duplicates) st delete_file w.
Proof.
  induction duplicates as [|[file_hash file_paths] duplicates IH];
    intros st w Hne; [done|].
  apply Forall_cons in Hne as [Hpaths Hne]. cbn [snd] in Hpaths.
  destruct file_paths as [|original_file rest]; [done|].
  cbn [for_each targets flat_map snd]. rewrite for_each_app.
  unfold mbind, M_bind, bind. rewrite delete_group_run.
  change (drop 1 (original_file :: rest)) with rest.
  destruct (for_each rest st delete_file w) as [[st'|e] w'];
    [by apply IH | done].
Qed.


(** ** What a scan does to the world *)

Section Frames.
Context `{Sha256}.

Lemma scan_trace_events nd files e :
  e ∈ scan_trace nd files ->
  (exists p, e = Sys (Getsize p)) \/
  (exists p sz, e = Sys (Open p) /\ stat_size (nd !! p) = Ok sz /\ 0 < sz).
Proof.
  induction files as [|p files IH]; cbn [scan_trace];
    [by intros ?%elem_of_nil|].
  unfold file_trace, observe. rewrite elem_of_app, elem_of_cons.
  intros [[->|He]|He]; [by left; eexists | |].
  - destruct (stat_size (nd !! p)) as [sz|] eqn:Hsz; [|by apply elem_of_nil in He].
    destruct (sz >? 0) eqn:Hpos; [|by apply elem_of_nil in He].
    apply list_elem_of_singleton in He as ->. right. exists p, sz.
    split_and!; [done..|lia].
  - destruct (stat_size (nd !! p)); [by apply IH | by apply elem_of_nil in He].
Qed.

Lemma scan_trace_scan_events nd files : Forall scan_event (scan_trace nd files).
Proof.
  apply Forall_forall. intros e [[p ->]|(p & sz & -> & _)]%scan_trace_events;
    exact I.
Qed.

(** A scan leaves the file system as it found it, whatever its outcome. *)
Lemma find_duplicate_files_frame folder_path w :
  exists r evs,
    find_duplicate_files folder_path w =
      (r, World (nodes w) (tree w) (log w ++ evs)) /\
    Forall scan_event evs.
Proof.
  destruct (nodes w !! folder_path) as [[f|sz| |err]|] eqn:Hn.
  2: { rewrite (find_duplicate_files_run _ _ _ Hn). do 2 eexists.
       split; [done|]. repeat constructor. apply scan_trace_scan_events. }
  all: rewrite find_duplicate_files_invalid by (intros sz; congruence);
    do 2 eexists; split; [done|]; by repeat constructor.
Qed.

(** The returned dictionary depends on the nodes and the listing only. *)
Lemma find_duplicate_files_log_irrelevant folder_path w evs :
  (find_duplicate_files folder_path
     (World (nodes w) (tree w) (log w ++ evs))).1 =
  (find_duplicate_files folder_path w).1.
Proof.
  destruct (nodes w !! folder_path) as [[f|sz| |err]|] eqn:Hn.
  2: { by rewrite !(find_duplicate_files_run _ _ sz). }
  all: by rewrite !find_duplicate_files_invalid by
    (cbn [nodes]; intros sz; congruence).
Qed.

End Frames.

(** * The specification's claims *)

Section Claims.
Context `{Sha256}.

Lemma scan_grouping entries st w w' :
  for_each entries (∅, []) scan_dir w = (Ok st, w') ->
  grouping (nodes w) (walk_files entries) st /\
  w' = World (nodes w) (tree w)
         (log w ++ scan_trace (nodes w) (walk_files entries)).
Proof.
  rewrite scan_dirs_run, scan_files_run. intros Hrun.
  injection Hrun as Hscan <-. split; [|done].
  by apply (scan_pure_grouping _ _ [] (∅, [])), Hscan; apply grouping_init.
Qed.

Lemma grouping_first_elem nd files st h p :
  grouping nd files st -> st.1 !! h = Some p ->
  p ∈ files /\ grouped_as nd p = Some h.
Proof.
  intros [Hf _ _] Hp. rewrite Hf in Hp.
  apply head_Some_elem_of in Hp. by apply list_elem_of_filter in Hp as [? ?].
Qed.

Lemma grouping_group nd files st h paths :
  grouping nd files st ->
  (h, paths) ∈ st.2 <->
  paths = group_of nd files h /\ (2 <= length paths)%nat.
Proof.
  intros [_ Hg Hk]. rewrite dict_get_elem_of, Hg by done.
  case_decide as Hlen; split.
  - intros ?; by simplify_eq.
  - by intros [-> _].
  - done.
  - intros [-> ?]. lia.
Qed.

Lemma grouping_group_elem nd files st h paths p :
  grouping nd files st -> (h, paths) ∈ st.2 -> p ∈ paths ->
  p ∈ files /\ grouped_as nd p = Some h.
Proof.
  intros Hinv [-> _]%(grouping_group _ _ _ _ _ Hinv) Hp.
  by apply list_elem_of_filter in Hp as [? ?].
Qed.

(** C2. For every file path that cannot be opened or read, [calculate_hash]
    returns [None] instead of raising, whatever the block size; and a path for
    which it returns [None] is never recorded by the scan, neither in
    [file_hashes] nor in any group of [duplicates]. *)
Theorem unavailable_file_is_skipped filepath w :
  (forall block_size,
     unavailable (nodes w !! filepath) block_size ->
     calculate_hash filepath block_size w =
       (Ok None, emit (Sys (Open filepath)) w)) /\
  (forall entries st w',
     (calculate_hash filepath default_block_size w).1 = Ok None ->
     for_each entries (∅, []) scan_dir w = (Ok st, w') ->
     (forall h, st.1 !! h <> Some filepath) /\
     (forall h paths, (h, paths) ∈ st.2 -> filepath ∉ paths)).
Proof.
  split.
  - intros block_size Hun. rewrite calculate_hash_run. do 2 f_equal.
    unfold unavailable in Hun. unfold fingerprint.
    destruct (open_node _) as [f|e]; [|done].
    destruct Hun as [e Hread]. by rewrite Hread.
  - intros entries st w' Hnone [Hinv _]%scan_grouping.
    rewrite calculate_hash_run in Hnone. cbn [fst] in Hnone.
    injection Hnone as Hnone. split.
    + intros h [_ Hg%grouped_as_fingerprint]%(grouping_first_elem _ _ _ _ _ Hinv).
      congruence.
    + intros h paths Hin Hp.
      destruct (grouping_group_elem _ _ _ _ _ _ Hinv Hin Hp)
        as [_ Hg%grouped_as_fingerprint].
      congruence.
Qed.

(** C4. Every path the scan records, in [file_hashes] or in a group of
    [duplicates], names a file of size greater than zero, and the scan opens
    (fingerprints) no other file. *)
Theorem zero_byte_files_are_never_grouped entries w r w' :
  for_each entries (∅, []) scan_dir w = (r, w') ->
  (exists evs, log w' = log w ++ evs /\
     forall p, Sys (Open p) ∈ evs ->
       exists sz, stat_size (nodes w !! p) = Ok sz /\ 0 < sz) /\
  (forall st, r = Ok st ->
     (forall h p, st.1 !! h = Some p ->
        exists sz, stat_size (nodes w !! p) = Ok sz /\ 0 < sz) /\
     (forall h paths p, (h, paths) ∈ st.2 -> p ∈ paths ->
        exists sz, stat_size (nodes w !! p) = Ok sz /\ 0 < sz)).
Proof.
  intros Hrun. split.
  - rewrite scan_dirs_run, scan_files_run in Hrun. injection Hrun as _ <-.
    eexists. split; [done|]. intros p Hp.
    apply scan_trace_events in Hp as [[q ?]|(q & sz & ? & ? & ?)];
      simplify_eq. by exists sz.
  - intros st ->. apply scan_grouping in Hrun as [Hinv _]. split.
    + intros h p [_ Hg]%(grouping_first_elem _ _ _ _ _ Hinv).
      by eapply grouped_as_size.
    + intros h paths p Hin Hp.
      destruct (grouping_group_elem _ _ _ _ _ _ Hinv Hin Hp) as [_ Hg].
      by eapply grouped_as_size.
Qed.

(** [main] once a folder has been picked. *)
Lemma main_run u w :
  askdirectory u <> "" ->
  main u w =
  match find_duplicate_files (askdirectory u)
          (emit (Printed ("Scanning for duplicate files in: "
                          +:+ askdirectory u)) w) with
  | (Raise e, w1) => (Raise e, w1)
  | (Ok [], w1) =>
      (Ok (), emit (ShowInfo "No Duplicates Found" no_duplicates_found) w1)
  | (Ok (item :: items), w1) =>
      let duplicates_found := item :: items in
      let w2 :=
        emit (ConfirmWindow
                (Confirmation
                   (foldr Z.add 0
                      (map (fun files => Z.of_nat (length files) - 1)
                         (map snd duplicates_found)))
                   (concat (map (fun item => drop 1 item.2) duplicates_found))))
          w1 in
      match confirm_click u with
      | DeleteDuplicates => on_confirm duplicates_found w2
      | Cancel =>
          (Ok (), emit (ShowInfo "Cancelled" (Plain "No files were deleted.")) w2)
      | CloseWindow => (Ok (), w2)
      end
  end.
Proof.
  intros Hfolder. unfold main. rewrite decide_False by done. run.
  destruct (find_duplicate_files _ _) as [[[|item items]|e] w1]; try done.
  destruct (confirm_click u); done.
Qed.

(** C5. On a directory, the scan returns whenever the size of every listed
    file can be read, and what it returns holds exactly the fingerprints with
    at least two grouped paths, each once, with all the grouped paths of the
    fingerprint in discovery order.  When the result is empty [main] ends with
    the "No Duplicates Found" dialog, having shown no confirmation window,
    removed nothing and left the file system as it was. *)
Theorem grouper_returns_the_duplicate_set u w sz :
  askdirectory u <> "" ->
  nodes w !! askdirectory u = Some (Directory sz) ->
  (Forall (fun p => exists size, stat_size (nodes w !! p) = Ok size)
     (walk_files (tree w (askdirectory u))) ->
   exists d w', find_duplicate_files (askdirectory u) w = (Ok d, w')) /\
  (forall d w',
     find_duplicate_files (askdirectory u) w = (Ok d, w') ->
     NoDup d.*1 /\
     (forall h paths,
        (h, paths) ∈ d <->
        paths = group_of (nodes w) (walk_files (tree w (askdirectory u))) h /\
        (2 <= length paths)%nat) /\
     (d = [] ->
      exists evs,
        main u w =
          (Ok (),
           World (nodes w) (tree w)
             (log w ++ evs ++
                [ShowInfo "No Duplicates Found" no_duplicates_found])) /\
        (forall m, ConfirmWindow m ∉ evs) /\
        (forall p, Sys (Remove p) ∉ evs))).
Proof.
  intros Hfolder Hdir. split.
  - intros Hall. rewrite (find_duplicate_files_run _ _ _ Hdir).
    destruct (scan_pure_total (nodes w) _ (∅, []) Hall) as [st ->].
    by do 2 eexists.
  - intros d w' Hrun.
    assert (Hscan : exists st,
              scan_pure (nodes w) (walk_files (tree w (askdirectory u))) (∅, [])
                = Ok st /\ d = st.2).
    { rewrite (find_duplicate_files_run _ _ _ Hdir) in Hrun.
      destruct (scan_pure _ _ _) as [st|e]; [|done].
      exists st. split; [done|]. by simplify_eq. }
    destruct Hscan as (st & Hscan & ->).
    assert (Hinv : grouping (nodes w) (walk_files (tree w (askdirectory u))) st).
    { by apply (scan_pure_grouping _ _ [] (∅, [])), Hscan; apply grouping_init. }
    split_and!.
    + apply Hinv.
    + intros h paths. by apply grouping_group.
    + intros Hempty. rewrite main_run by done.
      pose proof (find_duplicate_files_log_irrelevant (askdirectory u) w
                    [Printed ("Scanning for duplicate files in: "
                              +:+ askdirectory u)]) as Hsame.
      change (World _ _ _) with
        (emit (Printed ("Scanning for duplicate files in: "
                        +:+ askdirectory u)) w) in Hsame.
      rewrite Hrun in Hsame. cbn [fst] in Hsame.
      destruct (find_duplicate_files_frame (askdirectory u)
                  (emit (Printed ("Scanning for duplicate files in: "
                                  +:+ askdirectory u)) w))
        as (r & evs & Hfind & Hevs).
      rewrite Hfind in Hsame |- *. cbn [fst] in Hsame. subst r.
      rewrite Hempty. cbn [nodes tree log emit].
      exists (Printed ("Scanning for duplicate files in: " +:+ askdirectory u)
              :: evs).
      split_and!.
      * unfold emit. cbn. by rewrite <- !app_assoc.
      * intros m [?|Hin]%elem_of_cons; [done|].
        by apply (proj1 (Forall_forall _ _) Hevs) in Hin.
      * intros p [?|Hin]%elem_of_cons; [done|].
        by apply (proj1 (Forall_forall _ _) Hevs) in Hin.
Qed.

(** C8. On a root that is not a directory [find_duplicate_files] shows the
    error dialog and returns the empty dictionary: the check of the root and
    the dialog are the only things that happen, so nothing is walked, no size
    is read and no file is opened, and the file system is untouched. *)
Theorem invalid_root_is_rejected folder_path w :
  (forall sz, nodes w !! folder_path <> Some (Directory sz)) ->
  exists evs,
    find_duplicate_files folder_path w =
      (Ok [], World (nodes w) (tree w) (log w ++ evs)) /\
    evs = [Sys (Isdir folder_path);
           ShowError "Error"
             (Plain "The selected path is not a valid directory.")] /\
    (forall c, Sys c ∈ evs -> c = Isdir folder_path).
Proof.
  intros Hdir. eexists. split_and!.
  - by apply find_duplicate_files_invalid.
  - done.
  - intros c. rewrite !elem_of_cons. intros [?|[?|?%elem_of_nil]]; by simplify_eq.
Qed.

(** C10. On a root that is not a directory [find_duplicate_files] returns the
    empty dictionary, which is what it returns for any directory without
    duplicates; [main] then shows the "No Duplicates Found" dialog right
    after the error dialog. *)
Theorem invalid_root_reads_as_no_duplicates u w :
  askdirectory u <> "" ->
  (forall sz, nodes w !! askdirectory u <> Some (Directory sz)) ->
  (find_duplicate_files (askdirectory u) w).1 = Ok [] /\
  (forall w0 folder sz d w0',
     nodes w0 !! folder = Some (Directory sz) ->
     find_duplicate_files folder w0 = (Ok d, w0') ->
     (forall h,
        (length (group_of (nodes w0) (walk_files (tree w0 folder)) h) < 2)%nat) ->
     (find_duplicate_files folder w0).1 =
     (find_duplicate_files (askdirectory u) w).1) /\
  main u w =
    (Ok (),
     World (nodes w) (tree w)
       (log w ++
          [Printed ("Scanning for duplicate files in: " +:+ askdirectory u);
           Sys (Isdir (askdirectory u));
           ShowError "Error"
             (Plain "The selected path is not a valid directory.");
           ShowInfo "No Duplicates Found" no_duplicates_found])).
Proof.
  intros Hfolder Hdir. split_and!.
  - by rewrite find_duplicate_files_invalid.
  - intros w0 folder sz d w0' Hdir0 Hrun Hnone.
    rewrite (find_duplicate_files_invalid (askdirectory u) w) by done.
    rewrite Hrun. cbn [fst].
    rewrite (find_duplicate_files_run _ _ _ Hdir0) in Hrun.
    destruct (scan_pure _ _ _) as [st|e] eqn:Hscan; [|done].
    injection Hrun as <- _.
    assert (Hinv : grouping (nodes w0) (walk_files (tree w0 folder)) st).
    { by apply (scan_pure_grouping _ _ [] (∅, [])), Hscan; apply grouping_init. }
    destruct st.2 as [|[h paths] d] eqn:Hd; [done|]. exfalso.
    assert (Hin : (h, paths) ∈ st.2) by (rewrite Hd; left).
    apply (grouping_group _ _ _ _ _ Hinv) in Hin as [-> Hlen].
    specialize (Hnone h). lia.
  - rewrite main_run by done.
    rewrite find_duplicate_files_invalid by done.
    unfold emit. cbn. by rewrite <- !app_assoc.
Qed.

(** Declining. When the user leaves the confirmation window otherwise than by
    the Delete button, [main] removes nothing: the file system is as it was
    and no call of [os.remove] is made.  Once the window has been shown, the
    run ends with the "Cancelled" dialog when the Cancel button was pressed,
    and with nothing after the window when the window was closed. *)
Lemma declined_confirmation_deletes_nothing u w :
  confirm_click u <> DeleteDuplicates ->
  exists r evs,
    main u w = (r, World (nodes w) (tree w) (log w ++ evs)) /\
    (forall p, Sys (Remove p) ∉ evs) /\
    (forall m, ConfirmWindow m ∈ evs ->
       r = Ok () /\
       (confirm_click u = Cancel ->
        last evs =
          Some (ShowInfo "Cancelled" (Plain "No files were deleted."))) /\
       (confirm_click u = CloseWindow -> last evs = Some (ConfirmWindow m))).
Proof.
  intros Hclick. destruct (decide (askdirectory u = "")) as [Hnone|Hfolder].
  { unfold main. rewrite decide_True by done. run.
    do 2 eexists. split_and!; [done|..].
    - intros p ?%list_elem_of_singleton. done.
    - intros m ?%list_elem_of_singleton. done. }
  rewrite main_run by done.
  destruct (find_duplicate_files_frame (askdirectory u)
              (emit (Printed ("Scanning for duplicate files in: "
                              +:+ askdirectory u)) w))
    as (r & evs & -> & Hevs).
  assert (Hscan : forall e, e ∈ evs -> scan_event e).
  { by apply Forall_forall. }
  set (line := Printed ("Scanning for duplicate files in: " +:+ askdirectory u)).
  destruct r as [[|item items]|e].
  - exists (Ok ()), (line :: evs ++ [ShowInfo "No Duplicates Found" no_duplicates_found]).
    split_and!.
    + unfold emit. cbn. by rewrite <- !app_assoc.
    + intros p. rewrite elem_of_cons, elem_of_app, list_elem_of_singleton.
      intros [?|[Hin%Hscan|?]]; done.
    + intros m. rewrite elem_of_cons, elem_of_app, list_elem_of_singleton.
      intros [?|[Hin%Hscan|?]]; done.
  - cbn zeta. destruct (confirm_click u) eqn:Hc; [done| |].
    + eexists (Ok ()),
        (line :: evs ++ [ConfirmWindow _; ShowInfo "Cancelled" _]).
      split_and!.
      * unfold emit. cbn. by rewrite <- !app_assoc.
      * intros p. rewrite elem_of_cons, elem_of_app, !elem_of_cons.
        intros [?|[Hin%Hscan|[?|[?|?%elem_of_nil]]]]; done.
      * intros m _. split_and!; [done| |done].
        intros _. by rewrite last_cons, last_app.
    + eexists (Ok ()), (line :: evs ++ [ConfirmWindow _]).
      split_and!.
      * unfold emit. cbn. by rewrite <- !app_assoc.
      * intros p. rewrite elem_of_cons, elem_of_app, !elem_of_cons.
        intros [?|[Hin%Hscan|[?|?%elem_of_nil]]]; done.
      * intros m. rewrite elem_of_cons, elem_of_app, list_elem_of_singleton.
        intros [?|[Hin%Hscan|Hm]]; [done..|]. injection Hm as ->.
        split_and!; [done..|]. intros _. by rewrite last_cons, last_app.
  - exists (Raise e), (line :: evs). split_and!.
    + unfold emit. cbn. by rewrite <- !app_assoc.
    + intros p [?|Hin%Hscan]%elem_of_cons; done.
    + intros m [?|Hin%Hscan]%elem_of_cons; done.
Qed.

(** What [calculate_hash] returns for a regular file, with a block size other
    than zero: the digest of the whole content, or nothing. *)
Lemma fingerprint_content f block_size h :
  block_size <> 0 ->
  fingerprint (Some (Regular f)) block_size = Some h ->
  h = hexdigest (content f).
Proof.
  intros Hbs. unfold fingerprint. cbn [open_node].
  destruct (readable f); [|done].
  destruct (bad_sector f) as [k|] eqn:Hk.
  - destruct (decide (k < length (content f))%nat) as [Hlt|Hge].
    + by rewrite (read_blocks_bad f block_size k Hk Hlt Hbs
                    (length (content f)) 0 []) by lia.
    + rewrite (read_blocks_sound f block_size) with (n := length (content f));
        [| |done|lia].
      * cbn. by intros; simplify_eq.
      * intros k' ?. simplify_eq. lia.
  - rewrite (read_blocks_sound f block_size) with (n := length (content f));
      [| |done|lia].
    + cbn. by intros; simplify_eq.
    + intros k' ?. congruence.
Qed.

(** C9. Hashing reads the file and changes nothing, so hashing a path again
    gives the same answer; two files with the same content that are hashed
    get the same fingerprint, whatever block sizes (other than zero) they are
    read with; and when the digests of two contents do not collide, files with
    different content get different fingerprints. *)
Theorem hasher_is_a_function_of_content p1 p2 bs1 bs2 w1 w2 f1 f2 h1 h2 :
  bs1 <> 0 -> bs2 <> 0 ->
  nodes w1 !! p1 = Some (Regular f1) ->
  nodes w2 !! p2 = Some (Regular f2) ->
  (calculate_hash p1 bs1 w1).1 = Ok (Some h1) ->
  (calculate_hash p2 bs2 w2).1 = Ok (Some h2) ->
  (calculate_hash p1 bs1 (calculate_hash p1 bs1 w1).2).1 = Ok (Some h1) /\
  (content f1 = content f2 -> h1 = h2) /\
  ((hexdigest (content f1) = hexdigest (content f2) ->
    content f1 = content f2) ->
   content f1 <> content f2 -> h1 <> h2).
Proof.
  intros Hbs1 Hbs2 Hn1 Hn2. rewrite !calculate_hash_run. cbn [fst snd nodes emit].
  rewrite Hn1, Hn2. intros Hh1 Hh2.
  injection Hh1 as Hh1. injection Hh2 as Hh2.
  pose proof (fingerprint_content _ _ _ Hbs1 Hh1) as ->.
  pose proof (fingerprint_content _ _ _ Hbs2 Hh2) as ->.
  split_and!.
  - by rewrite Hh1.
  - by intros ->.
  - intros Hinj Hne Heq. by apply Hne, Hinj.
Qed.

End Claims.

(** ** The Remover *)





Lemma length_targets duplicates :
  Forall (fun item => item.2 <> []) duplicates ->
  Z.of_nat (length (targets duplicates)) =
  foldr Z.add 0 (map (fun files => Z.of_nat (length files) - 1) (map snd duplicates)).
Proof.
  induction 1 as [|[h paths] duplicates Hne _ IH]; [done|].
  cbn [targets flat_map map foldr snd] in *. rewrite <- IH.
  change (flat_map _ duplicates) with (targets duplicates).
  rewrite length_app, length_drop.
  destruct paths; [done|]. cbn [length]. lia.
Qed.






(** A scan raises as soon as the size of a listed file cannot be read. *)
Lemma scan_pure_aborts `{Sha256} nd before p after st e :
  Forall (fun q => exists sz, stat_size (nd !! q) = Ok sz) before ->
  stat_size (nd !! p) = Raise e ->
  scan_pure nd (before ++ p :: after) st = Raise e.
Proof.
  intros Hbefore Hp; revert st.
  induction Hbefore as [|q before [sz Hq] _ IH]; intros st; cbn [app scan_pure].
  - unfold observe. by rewrite Hp.
  - unfold observe at 1. rewrite Hq. apply IH.
Qed.

(** * The claims on the examples *)


Lemma unavailable_file_is_skipped_witness :
  calculate_hash "/d/B" default_block_size damaged =
    (Ok None, emit (Sys (Open "/d/B")) damaged) /\
  calculate_hash "/d/C" 1 damaged =
    (Ok None, emit (Sys (Open "/d/C")) damaged) /\
  exists st w',
    for_each (tree damaged "/d") (∅, []) scan_dir damaged = (Ok st, w') /\
    (forall h, st.1 !! h <> Some "/d/B") /\
    (forall h paths, (h, paths) ∈ st.2 -> "/d/B" ∉ paths).
Proof.
  destruct (unavailable_file_is_skipped "/d/B" damaged) as [HB Hscan].
  destruct (unavailable_file_is_skipped "/d/C" damaged) as [HC _].
  split; [apply HB; vm_compute; exact I|].
  split; [apply HC; vm_compute; by eexists|].
  assert (Hok : is_Ok (for_each (tree damaged "/d") (∅, []) scan_dir damaged).1
                = true) by (vm_compute; reflexivity).
  destruct (for_each (tree damaged "/d") (∅, []) scan_dir damaged)
    as [[st|e] w'] eqn:Hrun; [|discriminate Hok].
  exists st, w'. split; [reflexivity|].
  apply (Hscan (tree damaged "/d") st w'); [vm_compute; reflexivity | exact Hrun].
Defined.

Lemma zero_byte_files_are_never_grouped_witness :
  exists r w',
    for_each (tree scenario "/d") (∅, []) scan_dir scenario = (r, w') /\
    (exists evs, log w' = log scenario ++ evs /\
       forall p, Sys (Open p) ∈ evs ->
         exists sz, stat_size (nodes scenario !! p) = Ok sz /\ 0 < sz) /\
    (forall st, r = Ok st ->
       (forall h p, st.1 !! h = Some p ->
          exists sz, stat_size (nodes scenario !! p) = Ok sz /\ 0 < sz) /\
       (forall h paths p, (h, paths) ∈ st.2 -> p ∈ paths ->
          exists sz, stat_size (nodes scenario !! p) = Ok sz /\ 0 < sz)).
Proof.
  destruct (for_each (tree scenario "/d") (∅, []) scan_dir scenario)
    as [r w'] eqn:Hrun.
  exists r, w'. split; [reflexivity|].
  exact (zero_byte_files_are_never_grouped (tree scenario "/d") scenario r w' Hrun).
Defined.

Lemma grouper_returns_the_duplicate_set_witness :
  (exists d w', find_duplicate_files "/d" unique = (Ok d, w')) /\
  exists evs,
    main (User "/d" DeleteDuplicates) unique =
      (Ok (),
       World (nodes unique) (tree unique)
         (log unique ++ evs ++
            [ShowInfo "No Duplicates Found" no_duplicates_found])) /\
    (forall m, ConfirmWindow m ∉ evs) /\
    (forall p, Sys (Remove p) ∉ evs).
Proof.
  destruct (grouper_returns_the_duplicate_set
              (User "/d" DeleteDuplicates) unique 4096)
    as [Hreturns Hgroups]; [discriminate | vm_compute; reflexivity |].
  assert (Hrun : exists d w', find_duplicate_files "/d" unique = (Ok d, w')).
  { apply Hreturns. change (walk_files (tree unique "/d")) with ["/d/A"; "/d/C"].
    repeat constructor; eexists; vm_compute; reflexivity. }
  split; [exact Hrun|]. destruct Hrun as (d & w' & Hrun).
  destruct (Hgroups d w' Hrun) as (_ & _ & Hempty). apply Hempty.
  assert (Hd : (find_duplicate_files "/d" unique).1 = Ok [])
    by (vm_compute; reflexivity).
  rewrite Hrun in Hd. by injection Hd.
Defined.

Lemma invalid_root_is_rejected_witness :
  exists evs,
    find_duplicate_files "/d/A" scenario =
      (Ok [], World (nodes scenario) (tree scenario) (log scenario ++ evs)) /\
    evs = [Sys (Isdir "/d/A");
           ShowError "Error"
             (Plain "The selected path is not a valid directory.")] /\
    (forall c, Sys c ∈ evs -> c = Isdir "/d/A").
Proof.
  apply (invalid_root_is_rejected "/d/A" scenario).
  intros sz. vm_compute. discriminate.
Defined.

Lemma invalid_root_reads_as_no_duplicates_witness :
  (find_duplicate_files "/nowhere" scenario).1 = Ok [] /\
  (find_duplicate_files "/d" unique).1 =
    (find_duplicate_files "/nowhere" scenario).1 /\
  main (User "/nowhere" DeleteDuplicates) scenario =
    (Ok (),
     World (nodes scenario) (tree scenario)
       (log scenario ++
          [Printed "Scanning for duplicate files in: /nowhere";
           Sys (Isdir "/nowhere");
           ShowError "Error"
             (Plain "The selected path is not a valid directory.");
           ShowInfo "No Duplicates Found" no_duplicates_found])).
Proof.
  destruct (invalid_root_reads_as_no_duplicates
              (User "/nowhere" DeleteDuplicates) scenario)
    as (Hempty & Hsame & Hmain);
    [discriminate | intros sz; vm_compute; discriminate |].
  split; [exact Hempty|]. split; [|exact Hmain].
  assert (Hok : is_Ok (find_duplicate_files "/d" unique).1 = true)
    by (vm_compute; reflexivity).
  destruct (find_duplicate_files "/d" unique) as [[d|e] w'] eqn:Hrun;
    [|discriminate Hok].
  rewrite <- Hrun.
  apply (Hsame unique "/d" 4096 d w'); [vm_compute; reflexivity | exact Hrun |].
  intros h. change (walk_files (tree unique "/d")) with ["/d/A"; "/d/C"].
  unfold group_of. rewrite !filter_cons, filter_nil.
  assert (HA : grouped_as (nodes unique) "/d/A" = Some (hexdigest ["x"%byte]))
    by (vm_compute; reflexivity).
  assert (HC : grouped_as (nodes unique) "/d/C" = Some (hexdigest ["y"%byte]))
    by (vm_compute; reflexivity).
  rewrite HA, HC.
  destruct (decide (Some (hexdigest ["x"%byte]) = Some h)) as [Hx|Hx];
    destruct (decide (Some (hexdigest ["y"%byte]) = Some h)) as [Hy|Hy];
    cbn [length]; try lia.
  rewrite <- Hy in Hx. vm_compute in Hx. discriminate Hx.
Defined.

Lemma declined_confirmation_deletes_nothing_witness :
  exists r evs,
    main (User "/d" Cancel) scenario =
      (r, World (nodes scenario) (tree scenario) (log scenario ++ evs)) /\
    (forall p, Sys (Remove p) ∉ evs) /\
    (forall m, ConfirmWindow m ∈ evs ->
       r = Ok () /\
       last evs = Some (ShowInfo "Cancelled" (Plain "No files were deleted."))).
Proof.
  destruct (declined_confirmation_deletes_nothing (User "/d" Cancel) scenario)
    as (r & evs & Hrun & Hkept & Hend); [discriminate|].
  exists r, evs. split_and!; [exact Hrun | exact Hkept |].
  intros m Hm. destruct (Hend m Hm) as (Hr & Hcancel & _).
  split; [exact Hr | exact (Hcancel eq_refl)].
Defined.

Lemma hasher_is_a_function_of_content_witness :
  (calculate_hash "/d/A" default_block_size
     (calculate_hash "/d/A" default_block_size scenario).2).1 =
    Ok (Some (hexdigest ["x"%byte])) /\
  (calculate_hash "/d/A" default_block_size scenario).1 =
    (calculate_hash "/d/B" 1 scenario).1 /\
  hexdigest ["x"%byte] <> hexdigest ["y"%byte].
Proof.
  assert (HA : (calculate_hash "/d/A" default_block_size scenario).1
               = Ok (Some (hexdigest ["x"%byte]))) by (vm_compute; reflexivity).
  assert (HB : (calculate_hash "/d/B" 1 scenario).1
               = Ok (Some (hexdigest ["x"%byte]))) by (vm_compute; reflexivity).
  assert (HC : (calculate_hash "/d/C" 1 scenario).1
               = Ok (Some (hexdigest ["y"%byte]))) by (vm_compute; reflexivity).
  destruct (hasher_is_a_function_of_content "/d/A" "/d/C" default_block_size 1
              scenario scenario
              (File ["x"%byte] true None true) (File ["y"%byte] true None true)
              (hexdigest ["x"%byte]) (hexdigest ["y"%byte]))
    as (Hagain & _ & Hdiffer);
    [discriminate | discriminate | vm_compute; reflexivity
    | vm_compute; reflexivity | exact HA | exact HC |].
  split; [exact Hagain|]. split; [by rewrite HA, HB|].
  apply Hdiffer; [|discriminate].
  intros Heq. vm_compute in Heq. discriminate Heq.
Defined.




(** C1 (the code does otherwise). The size of a listed file is read outside
    any [try]: on a directory whose first entry is a dangling link the scan
    raises [FileNotFoundError] at that entry, before it has looked at the two
    files with the same content that follow, and [main] ends with that
    exception; the same directory without the link gives the group. *)
Theorem dangling_entry_aborts_the_scan :
  find_duplicate_files "/d" dangling =
    (Raise (OSError ENOENT),
     World (nodes dangling) (tree dangling)
       [Sys (Isdir "/d"); Sys (Walk "/d"); Sys (Getsize "/d/ghost")]) /\
  (main (User "/d" DeleteDuplicates) dangling).1 = Raise (OSError ENOENT) /\
  (find_duplicate_files "/d"
     (World (nodes dangling) (listing "/d" ["A"; "B"]) [])).1 =
    Ok [(hexdigest ["x"%byte], ["/d/A"; "/d/B"])].
Proof.
  split_and!.
  - rewrite (find_duplicate_files_run "/d" dangling 4096)
      by (vm_compute; reflexivity).
    change (walk_files (tree dangling "/d")) with ([] ++ "/d/ghost" :: ["/d/A"; "/d/B"]).
    rewrite (scan_pure_aborts _ [] "/d/ghost" _ _ (OSError ENOENT));
      [| constructor | vm_compute; reflexivity].
    f_equal.
  - vm_compute. reflexivity.
  - vm_compute. reflexivity.
Qed.

(** C7 (the code does otherwise). The confirmation window can be left in a
    third way, by closing it, and no callback is bound to that: on the
    scenario [main] then removes nothing and the file system is as it was,
    but the window is the last thing shown and the run is not reported as
    cancelled.  The Cancel button reports it, and so does [main] when the
    folder dialog is dismissed. *)
Theorem closed_window_is_not_reported :
  main (User "/d" CloseWindow) scenario =
    (Ok (),
     World (nodes scenario) (tree scenario)
       [Printed "Scanning for duplicate files in: /d";
        Sys (Isdir "/d"); Sys (Walk "/d");
        Sys (Getsize "/d/A"); Sys (Open "/d/A");
        Sys (Getsize "/d/B"); Sys (Open "/d/B");
        Sys (Getsize "/d/C"); Sys (Open "/d/C");
        Sys (Getsize "/d/D");
        ConfirmWindow (Confirmation 1 ["/d/B"])]) /\
  last (log (main (User "/d" Cancel) scenario).2) =
    Some (ShowInfo "Cancelled" (Plain "No files were deleted.")) /\
  last (log (main (User "" CloseWindow) scenario).2) =
    Some (ShowInfo "Cancelled"
            (Plain "No folder was selected. The operation has been cancelled.")).
Proof.
  split_and!.
  - rewrite main_run by discriminate.
    rewrite (find_duplicate_files_run "/d" _ 4096) by (vm_compute; reflexivity).
    vm_compute. reflexivity.
  - vm_compute. reflexivity.
  - vm_compute. reflexivity.
Qed.

(** * Further properties of the program *)

(** ** The deletion phase, with its log *)

Lemma delete_files_trace ps : forall deleted_count space_saved w,
  for_each ps (deleted_count, space_saved) delete_file w =
  (Ok (deleted_count + Z.of_nat (length (deletions (nodes w) ps)),
       space_saved + sum_sizes (deletions (nodes w) ps)),
   World (remaining (nodes w) ps) (tree w)
     (log w ++ deletion_trace (nodes w) ps)).
Proof.
  induction ps as [|p ps IH]; intros c s w.
  - cbn. unfold ret, sum_sizes. cbn.
    by rewrite app_nil_r, world_eta, !Z.add_0_r.
  - cbn [for_each]. unfold mbind, M_bind, bind.
    rewrite delete_file_run. cbn zeta.
    cbn [deletions remaining deletion_trace].
    destruct (attempt _) as [size|e] eqn:Hatt; rewrite IH;
      cbn [nodes tree log]; rewrite <- app_assoc;
      f_equal; f_equal; f_equal.
    + rewrite length_cons. lia.
    + unfold sum_sizes. cbn. lia.
Qed.

Lemma delete_duplicates_trace item duplicates w :
  Forall (fun item => item.2 <> []) (item :: duplicates) ->
  delete_duplicates (item :: duplicates) w =
  (Ok (Z.of_nat (length (deletions (nodes w) (targets (item :: duplicates)))),
       sum_sizes (deletions (nodes w) (targets (item :: duplicates)))),
   World (remaining (nodes w) (targets (item :: duplicates))) (tree w)
     (log w ++ deletion_trace (nodes w) (targets (item :: duplicates)))).
Proof.
  intros Hne. unfold delete_duplicates.
  rewrite delete_groups_run by done. by rewrite delete_files_trace.
Qed.

Lemma deletion_trace_events ps : forall nd e,
  e ∈ deletion_trace nd ps ->
  exists p, p ∈ ps /\
    (e = Sys (Getsize p) \/ e = Sys (Remove p) \/
     e = Printed ("Deleted: " +:+ p) \/
     exists err, e = ShowError "Error" (DeleteError p err)).
Proof.
  induction ps as [|p ps IH]; intros nd e; cbn [deletion_trace];
    [by intros ?%elem_of_nil|].
  rewrite elem_of_app. intros [He|He].
  - exists p. split; [left|]. unfold delete_trace in He.
    apply elem_of_cons in He as [->|He]; [by left|].
    destruct (stat_size (nd !! p)).
    + apply elem_of_cons in He as [->|He]; [by right; left|].
      apply list_elem_of_singleton in He as ->.
      destruct (can_remove (nd !! p)); [by right; right; left|].
      right; right; right. by eexists.
    + apply list_elem_of_singleton in He as ->.
      right; right; right. by eexists.
  - destruct (IH _ _ He) as (q & Hq & Hcases). exists q. split; [by right|done].
Qed.





(** X2 (empty group). On a dictionary with an empty group [delete_duplicates]
    raises [IndexError] at [file_paths[0]], after it has gone through the
    groups before it: their files have been deleted and no total is
    returned. *)
Theorem empty_group_raises_IndexError before file_hash after w :
  Forall (fun item => item.2 <> []) before ->
  delete_duplicates (before ++ (file_hash, []) :: after) w =
    (Raise IndexError,
     World (remaining (nodes w) (targets before)) (tree w)
       (log w ++ deletion_trace (nodes w) (targets before))).
Proof.
  intros Hne.
  assert (Hrun : delete_duplicates (before ++ (file_hash, []) :: after) w =
                 for_each (before ++ (file_hash, []) :: after) (0, 0)
                   delete_group w).
  { unfold delete_duplicates. by destruct before. }
  rewrite Hrun, for_each_app, delete_groups_run, delete_files_trace by done.
  cbn [for_each]. unfold mbind, M_bind, bind, delete_group. cbn [item0].
  by run.
Qed.

Section MoreScan.
Context `{Sha256}.

(** Every group a scan returns has at least two paths. *)
Lemma find_duplicate_files_groups folder_path w d w' :
  find_duplicate_files folder_path w = (Ok d, w') ->
  Forall (fun item => (2 <= length item.2)%nat) d.
Proof.
  destruct (nodes w !! folder_path) as [[f|sz| |err]|] eqn:Hn.
  2: { rewrite (find_duplicate_files_run _ _ _ Hn).
       destruct (scan_pure _ _ _) as [st|e] eqn:Hscan; [|done].
       intros ?; simplify_eq.
       assert (Hinv : grouping (nodes w) (walk_files (tree w folder_path)) st).
       { by apply (scan_pure_grouping _ _ [] (∅, [])), Hscan;
           apply grouping_init. }
       apply Forall_forall. intros [h paths] Hin.
       by apply (grouping_group _ _ _ _ _ Hinv) in Hin as [_ ?]. }
  all: rewrite find_duplicate_files_invalid by (intros sz; congruence);
    intros ?; simplify_eq; constructor.
Qed.

Lemma scan_pure_raise_at nd files st e :
  scan_pure nd files st = Raise e ->
  exists before p after,
    files = before ++ p :: after /\
    Forall (fun q => exists size, stat_size (nd !! q) = Ok size) before /\
    stat_size (nd !! p) = Raise e.
Proof.
  revert st; induction files as [|p files IH]; intros st Hscan; [done|].
  cbn [scan_pure] in Hscan. unfold observe in Hscan.
  destruct (stat_size (nd !! p)) as [size|e1] eqn:Hstat.
  - destruct (IH _ Hscan) as (before & q & after & -> & Hbefore & Hq).
    exists (p :: before), q, after. split_and!; [done| |done].
    constructor; [by exists size | done].
  - simplify_eq. exists [], p, files. split_and!; [done|constructor|done].
Qed.

(** X3 (read-only scan). Whatever its outcome, [find_duplicate_files] leaves
    the file system as it found it; the only calls it makes are [isdir],
    [walk], [getsize] and [open], and the only thing it shows is the error
    dialog. *)
Theorem scan_never_writes folder_path w r w' :
  find_duplicate_files folder_path w = (r, w') ->
  nodes w' = nodes w /\ tree w' = tree w /\
  exists evs, log w' = log w ++ evs /\
    (forall e, e ∈ evs ->
       (exists p, e = Sys (Isdir p) \/ e = Sys (Walk p) \/
                  e = Sys (Getsize p) \/ e = Sys (Open p)) \/
       exists title m, e = ShowError title m).
Proof.
  destruct (find_duplicate_files_frame folder_path w)
    as (r0 & evs & -> & Hevs). intros ?; simplify_eq.
  split_and!; [done..|]. exists evs. split; [done|].
  intros e He. apply (proj1 (Forall_forall _ _) Hevs) in He.
  destruct e as [[p|p|p|p|p]| | | |]; try done; eauto 10.
Qed.

(** X4 (when a scan raises). On a directory the scan raises exactly when the
    size of some listed file cannot be read, and what it raises is the
    [OSError] that [os.path.getsize] raised on the first such file, a
    [FileNotFoundError] or a [PermissionError] for instance: looking a
    fingerprint up in [file_hashes] or [duplicates] never raises a
    [KeyError]. *)
Theorem scan_raises_what_getsize_raises folder_path w sz :
  nodes w !! folder_path = Some (Directory sz) ->
  ((exists e w', find_duplicate_files folder_path w = (Raise e, w')) <->
   exists p e, p ∈ walk_files (tree w folder_path) /\
               stat_size (nodes w !! p) = Raise e) /\
  (forall e w', find_duplicate_files folder_path w = (Raise e, w') ->
     is_OSError e = true /\
     exists before p after,
       walk_files (tree w folder_path) = before ++ p :: after /\
       Forall (fun q => exists size, stat_size (nodes w !! q) = Ok size)
         before /\
       stat_size (nodes w !! p) = Raise e).
Proof.
  intros Hdir. rewrite (find_duplicate_files_run _ _ _ Hdir). split; [split|].
  - intros (e & w' & Hrun).
    destruct (scan_pure _ _ _) as [st|e0] eqn:Hscan; [done|].
    destruct (scan_pure_raise_at _ _ _ _ Hscan)
      as (before & p & after & Hfiles & _ & Hstat).
    exists p, e0. split; [|done]. rewrite Hfiles. set_solver.
  - intros (p & e & Hp & Hstat).
    destruct (scan_pure _ _ _) as [st|e0] eqn:Hscan; [|by do 2 eexists].
    apply scan_pure_returns in Hscan.
    destruct (proj1 (Forall_forall _ _) Hscan p Hp) as [size Hsize]. congruence.
  - intros e w' Hrun.
    destruct (scan_pure _ _ _) as [st|e0] eqn:Hscan; [done|].
    injection Hrun as <- _. split; [by eapply scan_pure_raise|].
    by eapply scan_pure_raise_at.
Qed.

(** X5 (block size zero). With a block size of zero the first read returns
    nothing, so every file that can be opened gets the digest of the empty
    content, whatever it holds. *)
Theorem zero_block_size_hashes_nothing filepath w f :
  open_node (nodes w !! filepath) = Ok f ->
  calculate_hash filepath 0 w =
    (Ok (Some (hexdigest [])), emit (Sys (Open filepath)) w).
Proof.
  intros Hopen. rewrite calculate_hash_run. unfold fingerprint.
  by rewrite Hopen, read_blocks_zero.
Qed.

End MoreScan.

(** ** A whole run of [main] *)

Section Runs_of_main.
Context `{Sha256}.

Lemma find_duplicate_files_grouping folder_path w sz d w' :
  nodes w !! folder_path = Some (Directory sz) ->
  find_duplicate_files folder_path w = (Ok d, w') ->
  exists st,
    d = st.2 /\
    scan_pure (nodes w) (walk_files (tree w folder_path)) (∅, []) = Ok st /\
    grouping (nodes w) (walk_files (tree w folder_path)) st.
Proof.
  intros Hdir Hrun. rewrite (find_duplicate_files_run _ _ _ Hdir) in Hrun.
  destruct (scan_pure _ _ _) as [st|e] eqn:Hscan; [|done].
  exists st. split_and!; [by simplify_eq | done |].
  by apply (scan_pure_grouping _ _ [] (∅, [])), Hscan; apply grouping_init.
Qed.

(** A scan that returns groups was given a directory. *)
Lemma find_duplicate_files_nonempty folder_path w item items w' :
  find_duplicate_files folder_path w = (Ok (item :: items), w') ->
  exists sz, nodes w !! folder_path = Some (Directory sz).
Proof.
  destruct (nodes w !! folder_path) as [[f|sz| |err]|] eqn:Hn; [|by eexists|..].
  all: by rewrite find_duplicate_files_invalid by (intros sz; congruence).
Qed.

Lemma targets_concat duplicates :
  concat (map (fun item : string * list string => drop 1 item.2) duplicates)
  = targets duplicates.
Proof. unfold targets. by rewrite flat_map_concat_map. Qed.

(** [main] when the scan returns groups and the Delete button is pressed. *)
Lemma main_confirmed_run u w item items :
  askdirectory u <> "" ->
  confirm_click u = DeleteDuplicates ->
  (find_duplicate_files (askdirectory u) w).1 = Ok (item :: items) ->
  exists scan_evs,
    Forall scan_event scan_evs /\
    main u w =
      (Ok (),
       World (remaining (nodes w) (targets (item :: items))) (tree w)
         (log w ++
            Printed ("Scanning for duplicate files in: " +:+ askdirectory u)
            :: scan_evs ++
            ConfirmWindow
              (Confirmation (Z.of_nat (length (targets (item :: items))))
                 (targets (item :: items)))
            :: deletion_trace (nodes w) (targets (item :: items)) ++
            [ShowInfo "Summary"
               (Summary
                  (Z.of_nat
                     (length (deletions (nodes w) (targets (item :: items)))))
                  (sum_sizes (deletions (nodes w) (targets (item :: items)))))])).
Proof.
  intros Hfolder Hclick Hfind. rewrite main_run by done.
  pose proof (find_duplicate_files_log_irrelevant (askdirectory u) w
                [Printed ("Scanning for duplicate files in: "
                          +:+ askdirectory u)]) as Hsame.
  change (World _ _ _) with
    (emit (Printed ("Scanning for duplicate files in: "
                    +:+ askdirectory u)) w) in Hsame.
  rewrite Hfind in Hsame.
  destruct (find_duplicate_files_frame (askdirectory u)
              (emit (Printed ("Scanning for duplicate files in: "
                              +:+ askdirectory u)) w))
    as (r & evs & Hrun & Hevs).
  rewrite Hrun in Hsame |- *. cbn [fst] in Hsame. subst r.
  assert (Hne : Forall (fun item : string * list string => item.2 <> [])
                  (item :: items)).
  { eapply Forall_impl; [by eapply find_duplicate_files_groups|].
    intros [h paths] Hl. cbn [snd] in *. intros ->. simpl in Hl. lia. }
  rewrite Hclick. cbn zeta. unfold on_confirm. run.
  rewrite delete_duplicates_trace by done. cbn [nodes tree log emit].
  exists evs. split; [done|].
  rewrite targets_concat, <- (length_targets _ Hne).
  unfold emit. cbn [nodes tree log]. do 2 f_equal.
  by rewrite <- !app_assoc.
Qed.

Lemma targets_nonempty item items :
  Forall (fun item : string * list string => (2 <= length item.2)%nat)
    (item :: items) ->
  targets (item :: items) <> [].
Proof.
  intros [Hitem _]%Forall_cons. destruct item as [h [|o [|p rest]]];
    cbn in Hitem; try lia. done.
Qed.

(** The runs of [main]: either nothing is removed, or the scan returned
    groups and the Delete button was pressed. *)
Lemma main_cases u w :
  (exists r evs,
     main u w = (r, World (nodes w) (tree w) (log w ++ evs)) /\
     (forall p, Sys (Remove p) ∉ evs) /\
     (forall total paths,
        ConfirmWindow (Confirmation total paths) ∈ evs ->
        total = Z.of_nat (length paths) /\ paths <> [])) \/
  (askdirectory u <> "" /\ confirm_click u = DeleteDuplicates /\
   exists item items,
     (find_duplicate_files (askdirectory u) w).1 = Ok (item :: items)).
Proof.
  destruct (decide (askdirectory u = "")) as [Hnone|Hfolder].
  { left. unfold main. rewrite decide_True by done. run.
    do 2 eexists. split_and!; [done|..].
    - by intros p ?%list_elem_of_singleton.
    - by intros total paths ?%list_elem_of_singleton. }
  pose proof (find_duplicate_files_log_irrelevant (askdirectory u) w
                [Printed ("Scanning for duplicate files in: "
                          +:+ askdirectory u)]) as Hsame.
  change (World _ _ _) with
    (emit (Printed ("Scanning for duplicate files in: "
                    +:+ askdirectory u)) w) in Hsame.
  destruct (find_duplicate_files_frame (askdirectory u)
              (emit (Printed ("Scanning for duplicate files in: "
                              +:+ askdirectory u)) w))
    as (r & evs & Hrun & Hevs).
  assert (Hscan : forall e, e ∈ evs -> scan_event e) by (by apply Forall_forall).
  rewrite main_run by done.
  set (line := Printed ("Scanning for duplicate files in: " +:+ askdirectory u))
    in *.
  rewrite Hrun in Hsame. cbn [fst] in Hsame.
  destruct r as [[|item items]|e].
  - left. rewrite Hrun.
    exists (Ok ()),
      (line :: evs ++ [ShowInfo "No Duplicates Found" no_duplicates_found]).
    split_and!.
    + unfold emit. cbn. by rewrite <- !app_assoc.
    + intros p. rewrite elem_of_cons, elem_of_app, list_elem_of_singleton.
      intros [?|[Hin%Hscan|?]]; done.
    + intros total paths.
      rewrite elem_of_cons, elem_of_app, list_elem_of_singleton.
      intros [?|[Hin%Hscan|?]]; done.
  - destruct (confirm_click u) eqn:Hclick.
    { right. split_and!; [done..|]. by exists item, items. }
    all: left; rewrite Hrun; cbn zeta.
    all: assert (Hlen : Forall (fun item : string * list string =>
                                  (2 <= length item.2)%nat) (item :: items))
           by (by eapply find_duplicate_files_groups).
    all: assert (Hne : Forall (fun item : string * list string => item.2 <> [])
                         (item :: items))
           by (eapply Forall_impl; [exact Hlen|];
               intros [h paths] Hl; cbn [snd] in *; intros ->;
               simpl in Hl; lia).
    all: rewrite targets_concat, <- (length_targets _ Hne).
    + eexists (Ok ()),
        (line :: evs ++ [ConfirmWindow _; ShowInfo "Cancelled" _]).
      split_and!.
      * unfold emit. cbn. by rewrite <- !app_assoc.
      * intros p. rewrite elem_of_cons, elem_of_app, !elem_of_cons.
        intros [?|[Hin%Hscan|[?|[?|?%elem_of_nil]]]]; done.
      * intros total paths. rewrite elem_of_cons, elem_of_app, !elem_of_cons.
        intros [?|[Hin%Hscan|[?|[?|?%elem_of_nil]]]]; try done.
        simplify_eq. split; [done|]. by apply targets_nonempty.
    + eexists (Ok ()), (line :: evs ++ [ConfirmWindow _]).
      split_and!.
      * unfold emit. cbn. by rewrite <- !app_assoc.
      * intros p. rewrite elem_of_cons, elem_of_app, list_elem_of_singleton.
        intros [?|[Hin%Hscan|?]]; done.
      * intros total paths.
        rewrite elem_of_cons, elem_of_app, list_elem_of_singleton.
        intros [?|[Hin%Hscan|?]]; try done.
        simplify_eq. split; [done|]. by apply targets_nonempty.
  - left. rewrite Hrun.
    exists (Raise e), (line :: evs). split_and!.
    + unfold emit. cbn. by rewrite <- !app_assoc.
    + intros p [?|Hin%Hscan]%elem_of_cons; done.
    + intros total paths [?|Hin%Hscan]%elem_of_cons; done.
Qed.

Lemma deletion_trace_removes nd ps p :
  Sys (Remove p) ∈ deletion_trace nd ps -> p ∈ ps.
Proof.
  intros (q & Hq & [?|[?|[?|[err ?]]]])%deletion_trace_events; by simplify_eq.
Qed.

Lemma deletion_trace_no_window nd ps m : ConfirmWindow m ∉ deletion_trace nd ps.
Proof.
  intros (q & Hq & [?|[?|[?|[err ?]]]])%deletion_trace_events; by simplify_eq.
Qed.

(** X6 (only listed paths). Every path [main] calls [os.remove] on was listed
    in the confirmation window, which was shown before any call of
    [os.remove] and answered with the Delete button; and the number a
    confirmation window announces is the number of paths it lists, which is
    not zero. *)
Theorem only_listed_paths_are_removed u w r w' :
  main u w = (r, w') ->
  exists evs,
    log w' = log w ++ evs /\
    (forall total paths,
       ConfirmWindow (Confirmation total paths) ∈ evs ->
       total = Z.of_nat (length paths) /\ paths <> []) /\
    (forall p,
       Sys (Remove p) ∈ evs ->
       confirm_click u = DeleteDuplicates /\
       exists total paths before after,
         evs = before ++ ConfirmWindow (Confirmation total paths) :: after /\
         p ∈ paths /\
         (forall q, Sys (Remove q) ∉ before)).
Proof.
  intros Hmain.
  destruct (main_cases u w)
    as [(r0 & evs & Hrun & Hno & Hwin)
       |(Hfolder & Hclick & item & items & Hfind)].
  { rewrite Hrun in Hmain. injection Hmain as <- <-.
    exists evs. split_and!; [done..|].
    intros p Hin. by apply Hno in Hin. }
  destruct (main_confirmed_run u w item items Hfolder Hclick Hfind)
    as (scan_evs & Hscan & Hrun).
  rewrite Hrun in Hmain. injection Hmain as <- <-.
  assert (Hev : forall e, e ∈ scan_evs -> scan_event e) by (by apply Forall_forall).
  assert (Hlen : Forall (fun item : string * list string =>
                           (2 <= length item.2)%nat) (item :: items)).
  { destruct (find_duplicate_files (askdirectory u) w) as [r1 w1] eqn:Hf.
    cbn [fst] in Hfind. subst r1. by eapply find_duplicate_files_groups. }
  eexists. split; [done|]. cbn [nodes]. split.
  - intros total paths. rewrite elem_of_cons, elem_of_app, elem_of_cons,
      elem_of_app, list_elem_of_singleton.
    intros [?|[Hin%Hev|[?|[Hin|?]]]]; try done.
    + simplify_eq. split; [done|]. by apply targets_nonempty.
    + by apply deletion_trace_no_window in Hin.
  - intros p Hp.
    assert (Htarget : p ∈ targets (item :: items)).
    { revert Hp. rewrite elem_of_cons, elem_of_app, elem_of_cons,
        elem_of_app, list_elem_of_singleton.
      intros [?|[Hin%Hev|[?|[Hin|?]]]]; try done.
      by eapply deletion_trace_removes. }
    split; [done|].
    eexists _, _,
      (Printed ("Scanning for duplicate files in: " +:+ askdirectory u)
       :: scan_evs), _.
    split_and!; [by rewrite <- app_comm_cons | exact Htarget |].
    intros q [?|Hin%Hev]%elem_of_cons; done.
Qed.


End Runs_of_main.

(** ** The further properties on the examples *)


Lemma empty_group_raises_IndexError_witness :
  (delete_duplicates (scenario_duplicates ++ [("", [])]) scenario).1
    = Raise IndexError /\
  nodes (delete_duplicates (scenario_duplicates ++ [("", [])]) scenario).2
    !! "/d/B" = None.
Proof.
  rewrite (empty_group_raises_IndexError scenario_duplicates "" [] scenario)
    by (repeat constructor; discriminate).
  split; [reflexivity | vm_compute; reflexivity].
Defined.

Lemma scan_never_writes_witness :
  nodes (find_duplicate_files "/d" dangling).2 = nodes dangling /\
  tree (find_duplicate_files "/d" dangling).2 = tree dangling.
Proof.
  destruct (scan_never_writes "/d" dangling
              (find_duplicate_files "/d" dangling).1
              (find_duplicate_files "/d" dangling).2)
    as (Hnodes & Htree & _); [apply surjective_pairing|].
  by split.
Defined.

Lemma scan_raises_what_getsize_raises_witness :
  exists e w', find_duplicate_files "/d" guarded = (Raise e, w').
Proof.
  apply (scan_raises_what_getsize_raises "/d" guarded 4096);
    [vm_compute; reflexivity|].
  exists "/d/secret", (OSError EACCES). split; [|vm_compute; reflexivity].
  change (walk_files (tree guarded "/d")) with ["/d/A"; "/d/secret"; "/d/B"].
  right. left.
Defined.

Lemma zero_block_size_hashes_nothing_witness :
  calculate_hash "/d/A" 0 scenario =
    (Ok (Some (hexdigest [])), emit (Sys (Open "/d/A")) scenario) /\
  calculate_hash "/d/C" 0 scenario =
    (Ok (Some (hexdigest [])), emit (Sys (Open "/d/C")) scenario).
Proof.
  split.
  - apply (zero_block_size_hashes_nothing "/d/A" scenario
             (File ["x"%byte] true None true)).
    vm_compute. reflexivity.
  - apply (zero_block_size_hashes_nothing "/d/C" scenario
             (File ["y"%byte] true None true)).
    vm_compute. reflexivity.
Defined.

Lemma only_listed_paths_are_removed_witness :
  exists evs,
    log (main (User "/d" DeleteDuplicates) scenario).2 = log scenario ++ evs /\
    (forall total paths,
       ConfirmWindow (Confirmation total paths) ∈ evs ->
       total = Z.of_nat (length paths) /\ paths <> []).
Proof.
  destruct (only_listed_paths_are_removed (User "/d" DeleteDuplicates) scenario
              (main (User "/d" DeleteDuplicates) scenario).1
              (main (User "/d" DeleteDuplicates) scenario).2)
    as (evs & Hlog & Hwindow & _); [apply surjective_pairing|].
  exists evs. by split.
Defined.



(** * smartbok.py *)

(** ** The chunks that are spoken *)

Section Chunks.
Import Smartbok.

Lemma concat_blocks (text : str) (b n : nat) :
  concat (map (fun k => take b (drop (b * k) text)) (seq 0 n))
  = take (b * n) text.
Proof.
  induction n as [|n IH]; [by rewrite Nat.mul_0_r, take_0|].
  rewrite seq_S, map_app, concat_app, IH. cbn [map concat].
  rewrite app_nil_r, take_take_drop. f_equal. lia.
Qed.

Lemma chunks_blocks (text : str) (max_chars : Z) :
  chunks text max_chars =
  map (fun k => take (Z.to_nat 5000) (drop (Z.to_nat 5000 * k) text))
      (seq 0 (Z.to_nat ((Z.min (Z.of_nat (length text)) max_chars + 4999)
                        / 5000))).
Proof.
  unfold chunks, range. change (5000 >? 0) with true. cbn match.
  rewrite map_map.
  replace (Z.min (Z.of_nat (length text)) max_chars - 0 + 5000 - 1)
    with (Z.min (Z.of_nat (length text)) max_chars + 4999) by lia.
  apply map_ext. intros k. unfold slice. f_equal; [f_equal; lia|].
  f_equal. lia.
Qed.

Lemma concat_chunks (text : str) (max_chars : Z) :
  concat (chunks text max_chars) =
  take (Z.to_nat
          (5000 * ((Z.min (Z.of_nat (length text)) max_chars + 4999) / 5000)))
       text.
Proof.
  rewrite chunks_blocks, concat_blocks. f_equal. lia.
Qed.

(** X10 (what is spoken). The chunks handed to the engine are blocks of the
    text, none of them empty and none longer than 5000 characters; put
    together they are the start of the text up to the smaller of its length
    and [max_chars], rounded up to a whole number of blocks. *)
Theorem spoken_text_is_a_prefix (text : str) (max_chars : Z) :
  concat (chunks text max_chars) =
    take (Z.to_nat
            (5000 * ((Z.min (Z.of_nat (length text)) max_chars + 4999) / 5000)))
         text /\
  Forall (fun chunk => (0 < length chunk <= Z.to_nat 5000)%nat)
    (chunks text max_chars).
Proof.
  split; [apply concat_chunks|].
  rewrite chunks_blocks. apply Forall_forall. intros chunk Hin.
  apply list_elem_of_fmap in Hin as (k & -> & Hk).
  apply list_elem_of_In, in_seq in Hk.
  rewrite length_take, length_drop.
  assert (Hblock : Z.of_nat (Z.to_nat 5000 * k) = 5000 * Z.of_nat k)
    by (rewrite Nat2Z.inj_mul; lia).
  assert (Hsize : Z.of_nat (Z.to_nat 5000) = 5000) by lia.
  set (offset := (Z.to_nat 5000 * k)%nat) in *. clearbody offset.
  set (block := Z.to_nat 5000) in *. clearbody block.
  set (m := Z.min (Z.of_nat (length text)) max_chars) in *.
  assert (Hm : m <= Z.of_nat (length text)) by (subst m; lia).
  clearbody m.
  pose proof (Z.div_mod (m + 4999) 5000 ltac:(lia)) as Hdiv.
  pose proof (Z.mod_pos_bound (m + 4999) 5000 ltac:(lia)) as Hmod.
  set (q := (m + 4999) / 5000) in *. clearbody q.
  lia.
Qed.

(** X11 (the limit holds). When [max_chars] is not negative and a multiple
    of 5000, as the default 20000 is, what is spoken is exactly
    [text[:max_chars]], the first [max_chars] characters of the text (all of
    it when it is shorter). *)
Theorem limit_holds_for_whole_blocks (text : str) (max_chars : Z) :
  0 <= max_chars ->
  max_chars mod 5000 = 0 ->
  concat (chunks text max_chars) = slice text 0 max_chars.
Proof.
  intros Hpos Hmod. unfold slice. rewrite drop_0, Z.sub_0_r.
  rewrite concat_chunks.
  destruct (decide (Z.of_nat (length text) <= max_chars)) as [Hshort|Hlong].
  - rewrite Z.min_l by done.
    rewrite !take_ge; [done | lia | zify; Z.div_mod_to_equations; lia].
  - rewrite Z.min_r by lia. f_equal. zify; Z.div_mod_to_equations; lia.
Qed.

(** X12 (the limit is passed). When [max_chars] is positive and not a multiple
    of 5000, a text longer than [max_chars] is spoken beyond the limit: the
    last block is spoken whole. *)
Theorem limit_is_passed_otherwise (text : str) (max_chars : Z) :
  0 < max_chars -> max_chars mod 5000 <> 0 ->
  max_chars < Z.of_nat (length text) ->
  max_chars < Z.of_nat (length (concat (chunks text max_chars))).
Proof.
  intros Hpos Hmod Hlong. rewrite concat_chunks, length_take.
  rewrite Z.min_r by lia. zify; Z.div_mod_to_equations; lia.
Qed.

End Chunks.

(** ** Subtitles *)

Section Subtitles.
Import Smartbok.
Context `{Unicode}.

Lemma startswith_prefix (s prefix : str) :
  startswith s prefix = true <-> exists rest, s = prefix ++ rest.
Proof.
  revert s; induction prefix as [|c prefix IH]; intros s.
  - destruct s; cbn; (split; [by eexists | done]).
  - destruct s as [|d s]; cbn; [split; [done | by intros [rest ?]]|].
    rewrite andb_true_iff, bool_decide_eq_true, IH. split.
    + intros [-> [rest ->]]. by exists rest.
    + intros [rest Heq]. injection Heq as -> ->. split; [done | by exists rest].
Qed.

Lemma contains_infix (needle s : str) :
  contains needle s = true <-> exists a b, s = a ++ needle ++ b.
Proof.
  induction s as [|c s IH]; cbn [contains]; rewrite orb_true_iff.
  - rewrite startswith_prefix. split.
    + intros [[rest Heq]|?]; [|done]. by exists [], rest.
    + intros (a & b & Heq). left. destruct a; [by exists b|done].
  - rewrite startswith_prefix, IH. split.
    + intros [[rest Heq]|(a & b & ->)]; [by exists [], rest|].
      by exists (c :: a), b.
    + intros ([|d a] & b & Heq); [left; by exists b|].
      injection Heq as -> ->. right. by exists a, b.
Qed.

Lemma lstrip_with_suffix p (s : str) :
  exists pre, s = pre ++ lstrip_with p s.
Proof.
  induction s as [|c s [pre IH]]; [by exists []|]. cbn.
  destruct (p c); [|by exists []]. exists (c :: pre). by rewrite IH at 1.
Qed.

Lemma lstrip_with_head p (s : str) c rest :
  lstrip_with p s = c :: rest -> p c = false.
Proof.
  induction s as [|d s IH]; [done|]. cbn.
  destruct (p d) eqn:Hd; [done|]. intros ?; by simplify_eq.
Qed.

Lemma lstrip_with_id p (s : str) :
  (forall c rest, s = c :: rest -> p c = false) -> lstrip_with p s = s.
Proof.
  destruct s as [|c s]; [done|]. intros Hhead. cbn.
  by rewrite (Hhead c s eq_refl).
Qed.

(** What [strip] leaves is a piece of the string that neither starts nor
    ends with a character that is stripped. *)
Lemma strip_with_spec p (s : str) :
  (exists pre post, s = pre ++ strip_with p s ++ post) /\
  (forall c rest, strip_with p s = c :: rest -> p c = false) /\
  (forall c rest, rev (strip_with p s) = c :: rest -> p c = false).
Proof.
  unfold strip_with.
  destruct (lstrip_with_suffix p s) as [pre Hpre].
  destruct (lstrip_with_suffix p (rev (lstrip_with p s))) as [post Hpost].
  set (a := lstrip_with p s) in *.
  set (b := lstrip_with p (rev a)) in *.
  assert (Ha : a = rev b ++ rev post).
  { rewrite <- (rev_involutive a), Hpost. apply rev_app_distr. }
  split_and!.
  - exists pre, (rev post). by rewrite <- Ha.
  - intros c rest Hr. destruct (rev b) as [|d r] eqn:Hb; [done|].
    simplify_eq. exact (lstrip_with_head p s c (rest ++ rev post) Ha).
  - rewrite rev_involutive. intros c rest Hb.
    by apply (lstrip_with_head p (rev a) c rest).
Qed.

Lemma strip_with_id p (s : str) :
  (forall c rest, s = c :: rest -> p c = false) ->
  (forall c rest, rev s = c :: rest -> p c = false) ->
  strip_with p s = s.
Proof.
  intros Hhead Hlast. unfold strip_with.
  rewrite (lstrip_with_id p s Hhead), (lstrip_with_id p (rev s) Hlast).
  apply rev_involutive.
Qed.

Lemma strip_with_idemp p (s : str) :
  strip_with p (strip_with p s) = strip_with p s.
Proof.
  destruct (strip_with_spec p s) as (_ & Hhead & Hlast).
  by apply strip_with_id.
Qed.

(** X13 (subtitle lines). Every line [read_srt] keeps is stripped and not
    empty, is not a number, and holds no arrow [-->]. *)
Theorem dialogue_lines_are_clean (lines : list str) (line : str) :
  line ∈ dialogue_lines lines ->
  line <> [] /\ strip line = line /\ str_isdigit line = false /\
  contains (lit "-->") line = false.
Proof.
  unfold dialogue_lines. intros (raw & -> & Hraw)%list_elem_of_fmap.
  apply list_elem_of_In, List.filter_In in Hraw as [_ Hkeep].
  unfold is_dialogue in Hkeep.
  apply andb_true_iff in Hkeep as [[Hne Hdigit]%andb_true_iff Harrow].
  apply negb_true_iff in Hdigit, Harrow. split_and!.
  - by destruct (strip raw).
  - apply strip_with_idemp.
  - done.
  - destruct (contains (lit "-->") (strip raw)) eqn:Hc; [|done].
    apply contains_infix in Hc as (a & b & Hc).
    destruct (strip_with_spec isspace raw) as ((pre & post & Hraw) & _).
    fold (strip raw) in Hraw. rewrite Hc in Hraw.
    assert (contains (lit "-->") raw = true); [|congruence].
    apply contains_infix. exists (pre ++ a), (b ++ post).
    rewrite Hraw. by rewrite <- !app_assoc.
Qed.

(** X14 (filtering again). Filtering the lines [read_srt] kept keeps them all,
    unchanged. *)
Theorem dialogue_lines_idempotent (lines : list str) :
  dialogue_lines (dialogue_lines lines) = dialogue_lines lines.
Proof.
  assert (Hclean : Forall (fun line => is_dialogue line = true /\
                                       strip line = line)
                     (dialogue_lines lines)).
  { apply Forall_forall. intros line Hin.
    assert (Hl := Hin). unfold dialogue_lines in Hl.
    apply list_elem_of_fmap in Hl as (raw & -> & Hraw).
    apply list_elem_of_In, List.filter_In in Hraw as [_ Hkeep].
    unfold is_dialogue in *.
    apply andb_true_iff in Hkeep as [[Hne Hdigit]%andb_true_iff Harrow].
    assert (Hstrip : strip (strip raw) = strip raw) by apply strip_with_idemp.
    split; [|done]. rewrite Hstrip, Hne, Hdigit. cbn.
    apply negb_true_iff in Harrow. apply negb_true_iff.
    destruct (contains (lit "-->") (strip raw)) eqn:Hc; [|done].
    apply contains_infix in Hc as (a & b & Hc).
    destruct (strip_with_spec isspace raw) as ((pre & post & Hraw) & _).
    fold (strip raw) in Hraw. rewrite Hc in Hraw.
    assert (contains (lit "-->") raw = true); [|congruence].
    apply contains_infix. exists (pre ++ a), (b ++ post).
    rewrite Hraw. by rewrite <- !app_assoc. }
  generalize dependent (dialogue_lines lines). intros kept Hclean.
  unfold dialogue_lines. induction Hclean as [|line kept [Hkeep Hstrip] _ IH];
    [done|].
  cbn [List.filter]. rewrite Hkeep. cbn [map]. by rewrite Hstrip, IH.
Qed.

End Subtitles.

(** ** The script *)

Section Script.
Import Smartbok.
Context `{Unicode}.
Variable libs : libraries.

Lemma speakable_error (label e : str) :
  speakable (lit "Error reading " ++ label ++ e) = false.
Proof. unfold speakable. cbn. reflexivity. Qed.

Lemma speakable_unsupported (suffix : str) :
  speakable (lit "Unsupported file type: " ++ suffix) = false.
Proof. unfold speakable. cbn. reflexivity. Qed.

(** A reader whose library raises returns a text the script does not
    speak. *)
Lemma failed_reads_are_not_speakable file_path text :
  (text, false) ∈ reads libs file_path -> speakable text = false.
Proof.
  unfold reads, read_pdf, read_docx, read_pptx, read_office, read_epub,
    read_image, read_html, read_txt, read_srt.
  rewrite !elem_of_cons.
  intros [Hin|[Hin|[Hin|[Hin|[Hin|[Hin|[Hin|[Hin|[Hin|Hin%elem_of_nil]]]]]]]]];
    try done.
  all: injection Hin as -> Hlib.
  all: match goal with
       | Hl : false = is_returned ?o |- _ => destruct o; [done|]
       end.
  - apply (speakable_error (lit "PDF: ")).
  - apply (speakable_error (lit "DOCX: ")).
  - apply (speakable_error (lit "PPTX: ")).
  - apply (speakable_error (lit "office file: ")).
  - apply (speakable_error (lit "EPUB: ")).
  - apply (speakable_error (lit "image: ")).
  - apply (speakable_error (lit "HTML: ")).
  - apply (speakable_error (lit "TXT: ")).
  - apply (speakable_error (lit "SRT: ")).
Qed.

(** [read_file] on a file that is there: one of the readers, or the message
    for a type that is not supported. *)
Lemma read_file_cases file_path :
  path_exists libs file_path = true ->
  (exists returned, (read_file libs file_path, returned) ∈ reads libs file_path)
  \/ read_file libs file_path =
     lit "Unsupported file type: " ++ str_lower (path_suffix libs file_path).
Proof.
  intros Hexists. unfold read_file. rewrite Hexists. cbn [negb]. cbn zeta.
  unfold reads.
  repeat (match goal with
          | |- context [if ?b then _ else _] => destruct b
          end; [left; eexists; rewrite !elem_of_cons; eauto 15|]).
  by right.
Qed.

(** X15 (what is spoken was read). Whatever the script speaks is a block of
    the text [read_file] returned; and then either the file is not there, or
    that text is what a reader gave whose library returned: an error of a
    reader and the message for an unsupported type are printed, never
    spoken. *)
Theorem spoken_text_was_extracted voices argv input_line chunk :
  Say chunk ∈ (script libs voices argv input_line).1 ->
  chunk ∈ chunks (read_file libs (chosen_path argv input_line)) 20000 /\
  (path_exists libs (chosen_path argv input_line) = false \/
   (read_file libs (chosen_path argv input_line), true)
     ∈ reads libs (chosen_path argv input_line)).
Proof.
  unfold script. set (file_path := chosen_path argv input_line).
  cbn zeta. destruct (speakable (read_file libs file_path)) eqn:Hspeak.
  2: { cbn. rewrite !elem_of_cons. by intros [?|[?|?%elem_of_nil]]. }
  unfold text_to_speech.
  destruct voices as [|voice voices].
  { cbn. rewrite !elem_of_cons. by intros [?|[?|?%elem_of_nil]]. }
  cbn [fst]. rewrite !elem_of_cons, elem_of_app, list_elem_of_singleton.
  intros [?|[?|[?|[Hin|?]]]]; try done.
  apply list_elem_of_fmap in Hin as (c & Heq & Hin). injection Heq as ->.
  split; [done|].
  destruct (path_exists libs file_path) eqn:Hexists; [right|by left].
  destruct (read_file_cases file_path Hexists) as [[[|] Hin']|Hun].
  - done.
  - apply failed_reads_are_not_speakable in Hin'. congruence.
  - rewrite Hun, speakable_unsupported in Hspeak. done.
Qed.

(** X16 (a missing file). For a path that names nothing the script speaks the
    words "File not found": that message passes the test that keeps the
    other messages from being spoken. *)
Theorem missing_file_is_spoken voice voices argv input_line :
  path_exists libs (chosen_path argv input_line) = false ->
  script libs (voice :: voices) argv input_line =
    ([Print ([nl] ++ lit "Reading: " ++ chosen_path argv input_line);
      Print ([nl] ++ lit "First 500 characters:" ++ [nl]
             ++ lit "File not found" ++ lit "..." ++ [nl]);
      Print (lit "Preparing to speak...");
      Say (lit "File not found");
      Print (lit "Finished speaking.")],
     None).
Proof.
  intros Hmissing. unfold script, read_file. rewrite Hmissing. reflexivity.
Qed.

End Script.

(** * upload_and_convert.py *)

Section Uploads.
Import Upload.
Variable service : drive.
Variable docx_folder : str.

Lemma sent_paths_app (evs evs' : list event) :
  sent_paths (evs ++ evs') = sent_paths evs ++ sent_paths evs'.
Proof. apply omap_app. Qed.

(** The loop from any state: the names it uploaded are the first documents
    of the listing; their identifiers were added to the file, a line each;
    it ends normally when they are all the documents, and otherwise with the
    exception raised on the next one. *)
Lemma upload_each_run (filenames : list str) (st : state) :
  exists uploaded ids,
    uploaded `prefix_of` documents filenames /\
    Forall2 (fun n id => id_of service docx_folder n = Some id) uploaded ids /\
    doc_ids (upload_each service docx_folder filenames st).1
      = doc_ids st ++ concat (map (fun id => id ++ [Smartbok.nl]) ids) /\
    match (upload_each service docx_folder filenames st).2 with
    | None =>
        uploaded = documents filenames /\
        sent_paths (events (upload_each service docx_folder filenames st).1)
          = sent_paths (events st)
            ++ map (path_join service docx_folder) uploaded
    | Some e =>
        exists n,
          (uploaded ++ [n]) `prefix_of` documents filenames /\
          left_on service docx_folder e uploaded n (sent_paths (events st))
            (sent_paths
               (events (upload_each service docx_folder filenames st).1))
    end.
Proof.
  revert st. induction filenames as [|filename filenames IH]; intros st.
  { exists [], []. cbn. by rewrite !app_nil_r. }
  cbn [upload_each documents List.filter].
  destruct (endswith filename (Smartbok.lit ".docx")) eqn:Hdocx; [|apply IH].
  fold (documents filenames). unfold upload_and_convert. cbn zeta.
  destruct (media_file_upload service (path_join service docx_folder filename))
    as [[]|e] eqn:Hmedia.
  2: { exists [], []. split_and!.
       - apply prefix_nil.
       - constructor.
       - cbn. by rewrite app_nil_r.
       - cbn [snd fst]. exists filename. split.
         + apply prefix_cons, prefix_nil.
         + left. split; [done|]. cbn. by rewrite app_nil_r. }
  destruct (create service
              (basename service (path_join service docx_folder filename))
              (path_join service docx_folder filename)) as [id|e] eqn:Hcreate.
  - cbn [doc_ids events].
    match goal with
    | |- context [upload_each _ _ _ ?st1] => set (st' := st1)
    end.
    assert (Hsent' : sent_paths (events st') =
                     sent_paths (events st)
                     ++ [path_join service docx_folder filename]).
    { subst st'. cbn [events]. rewrite !sent_paths_app. cbn.
      by rewrite app_nil_r. }
    assert (Hfile' : doc_ids st' = doc_ids st ++ id ++ [Smartbok.nl]) by done.
    destruct (IH st') as (uploaded & ids & Hpre & Hids & Hfile & Hend).
    clear IH. clearbody st'.
    destruct (upload_each service docx_folder filenames st') as [st2 raised].
    cbn [fst snd] in *.
    exists (filename :: uploaded), (id :: ids). split_and!.
    + by apply prefix_cons.
    + constructor; [|done]. unfold id_of. cbn zeta.
      by rewrite Hmedia, Hcreate.
    + rewrite Hfile, Hfile'. cbn [map concat]. by rewrite <- !app_assoc.
    + destruct raised as [e|].
      * destruct Hend as (n & Hn & Hleft). exists n. split.
        -- by apply prefix_cons.
        -- unfold left_on in *. cbn zeta in *. rewrite Hsent' in Hleft.
           destruct Hleft as [[Hm ->]|(Hm & Hc & ->)]; [left|right];
             split_and?; try done; by rewrite <- app_assoc.
      * destruct Hend as [-> Hsent]. split; [done|].
        rewrite Hsent, Hsent'. by rewrite <- app_assoc.
  - exists [], []. split_and!.
    + apply prefix_nil.
    + constructor.
    + cbn. by rewrite app_nil_r.
    + cbn [snd]. exists filename. split.
      * apply prefix_cons, prefix_nil.
      * right. cbn zeta. split_and!; [done..|].
        cbn [fst events]. by rewrite sent_paths_app.
Qed.

(** X17 (the file of identifiers). Whatever [doc_ids.txt] held before, after
    the script it holds the identifiers of the documents that were uploaded,
    a line each and in the order of the listing; these are the first names of
    the listing that end in [.docx]: all of them when the script ends
    normally, and otherwise those before the one on which the script ended,
    with the exception of [MediaFileUpload] when that file could not be
    opened (nothing was sent for it) or with the exception of the service;
    no other path is sent to the service.  When the folder cannot be listed
    the file is emptied and nothing is sent. *)
Theorem ids_file_lists_the_uploaded_documents (st : state) :
  match listdir service docx_folder with
  | Smartbok.Raised e =>
      script service docx_folder st = (State [] (events st), Some e)
  | Smartbok.Returned filenames =>
      exists uploaded ids,
        uploaded `prefix_of` documents filenames /\
        Forall2 (fun n id => id_of service docx_folder n = Some id)
          uploaded ids /\
        doc_ids (script service docx_folder st).1
          = concat (map (fun id => id ++ [Smartbok.nl]) ids) /\
        match (script service docx_folder st).2 with
        | None =>
            uploaded = documents filenames /\
            sent_paths (events (script service docx_folder st).1)
              = sent_paths (events st)
                ++ map (path_join service docx_folder) uploaded
        | Some e =>
            exists n,
              (uploaded ++ [n]) `prefix_of` documents filenames /\
              left_on service docx_folder e uploaded n (sent_paths (events st))
                (sent_paths (events (script service docx_folder st).1))
        end
  end.
Proof.
  unfold script. destruct (listdir service docx_folder) as [filenames|e];
    [|done]. cbn zeta.
  destruct (upload_each_run filenames (State [] (events st)))
    as (uploaded & ids & Hpre & Hids & Hfile & Hend).
  exists uploaded, ids. split_and!; done.
Qed.

(** X18 (every document uploaded). When the folder can be listed, every
    listed name that ends in [.docx] can be opened and the service accepts
    each of them, the script ends normally, each document was sent once, in
    the order of the listing, and [doc_ids.txt] holds their identifiers, a
    line each. *)
Theorem accepted_documents_are_all_listed
    (filenames : list str) (st : state) :
  listdir service docx_folder = Smartbok.Returned filenames ->
  Forall (fun n => is_Some (id_of service docx_folder n))
    (documents filenames) ->
  (script service docx_folder st).2 = None /\
  sent_paths (events (script service docx_folder st).1)
    = sent_paths (events st)
      ++ map (path_join service docx_folder) (documents filenames) /\
  exists ids,
    Forall2 (fun n id => id_of service docx_folder n = Some id)
      (documents filenames) ids /\
    doc_ids (script service docx_folder st).1
      = concat (map (fun id => id ++ [Smartbok.nl]) ids).
Proof.
  intros Hlist Haccepted. unfold script. rewrite Hlist. cbn zeta.
  destruct (upload_each_run filenames (State [] (events st)))
    as (uploaded & ids & Hpre & Hids & Hfile & Hend).
  destruct (upload_each _ _ _ _).2 as [e|].
  - destruct Hend as (n & Hn & Hleft). exfalso.
    destruct Hn as [rest Hn].
    assert (Hin : n ∈ documents filenames) by (rewrite Hn; set_solver).
    rewrite Forall_forall in Haccepted. destruct (Haccepted n Hin) as [id Hid].
    unfold id_of in Hid. cbn zeta in Hid.
    destruct Hleft as [[Hm _]|(Hm & Hc & _)]; cbn zeta in *.
    + by rewrite Hm in Hid.
    + by rewrite Hm, Hc in Hid.
  - destruct Hend as [-> Hsent]. split_and!; [done..|]. by exists ids.
Qed.

End Uploads.

(** ** The properties of smartbok.py and upload_and_convert.py on the
    examples *)

Lemma limit_holds_for_whole_blocks_witness :
  5000 mod 5000 = 0 /\
  concat (Smartbok.chunks (Smartbok.lit "Hello") 5000)
  = Smartbok.slice (Smartbok.lit "Hello") 0 5000.
Proof.
  split; [reflexivity|].
  apply (limit_holds_for_whole_blocks (Smartbok.lit "Hello") 5000).
  - discriminate.
  - reflexivity.
Defined.

Lemma limit_is_passed_otherwise_witness :
  2 mod 5000 = 2 /\
  2 < Z.of_nat (length (concat (Smartbok.chunks (Smartbok.lit "Hello") 2))).
Proof.
  split; [reflexivity|].
  apply (limit_is_passed_otherwise (Smartbok.lit "Hello") 2).
  - reflexivity.
  - discriminate.
  - reflexivity.
Defined.

Lemma dialogue_lines_are_clean_witness :
  Smartbok.lit "Hello there"
    ∈ Smartbok.dialogue_lines (H := ascii_unicode) subtitles /\
  Smartbok.strip (H := ascii_unicode) (Smartbok.lit "Hello there")
  = Smartbok.lit "Hello there".
Proof.
  assert (Hin : Smartbok.lit "Hello there"
                  ∈ Smartbok.dialogue_lines (H := ascii_unicode) subtitles).
  { apply (bool_decide_unpack _). vm_compute. exact I. }
  split; [exact Hin|].
  apply (dialogue_lines_are_clean (H := ascii_unicode) subtitles _ Hin).
Defined.

Lemma spoken_text_was_extracted_witness :
  Smartbok.Say (Smartbok.lit "Hello")
    ∈ (Smartbok.script (H := ascii_unicode) shelf [Smartbok.lit "voice"]
         [Smartbok.lit "smartbok.py"; Smartbok.lit "notes.TXT"] []).1 /\
  (Smartbok.read_file (H := ascii_unicode) shelf (Smartbok.lit "notes.TXT"),
   true)
    ∈ Smartbok.reads (H := ascii_unicode) shelf (Smartbok.lit "notes.TXT").
Proof.
  assert (Hin : Smartbok.Say (Smartbok.lit "Hello")
    ∈ (Smartbok.script (H := ascii_unicode) shelf [Smartbok.lit "voice"]
         [Smartbok.lit "smartbok.py"; Smartbok.lit "notes.TXT"] []).1).
  { vm_compute. do 3 apply list_elem_of_further. apply list_elem_of_here. }
  split; [exact Hin|].
  destruct (spoken_text_was_extracted (H := ascii_unicode) shelf _ _ _ _ Hin)
    as [_ [Hmissing|Hread]]; [discriminate Hmissing | exact Hread].
Defined.

Lemma missing_file_is_spoken_witness :
  Smartbok.Say (Smartbok.lit "File not found")
    ∈ (Smartbok.script (H := ascii_unicode) shelf [Smartbok.lit "voice"]
         [Smartbok.lit "smartbok.py"]
         (["034"%char] ++ Smartbok.lit "gone.pdf" ++ ["034"%char])).1.
Proof.
  rewrite (missing_file_is_spoken (H := ascii_unicode) shelf
             (Smartbok.lit "voice") []); [|reflexivity].
  do 3 apply list_elem_of_further. apply list_elem_of_here.
Defined.

Lemma accepted_documents_are_all_listed_witness :
  Upload.doc_ids
    (Upload.script office_drive (Smartbok.lit "G:")
       (Upload.State (Smartbok.lit "old") [])).1
  = Smartbok.lit "id-a.docx" ++ [Smartbok.nl]
    ++ Smartbok.lit "id-b.docx" ++ [Smartbok.nl] /\
  Upload.sent_paths
    (Upload.events
       (Upload.script office_drive (Smartbok.lit "G:")
          (Upload.State (Smartbok.lit "old") [])).1)
  = [Smartbok.lit "G:" ++ [backslash] ++ Smartbok.lit "a.docx";
     Smartbok.lit "G:" ++ [backslash] ++ Smartbok.lit "b.docx"].
Proof.
  destruct (accepted_documents_are_all_listed office_drive (Smartbok.lit "G:")
              [Smartbok.lit "a.docx"; Smartbok.lit "notes.txt";
               Smartbok.lit "b.docx"]
              (Upload.State (Smartbok.lit "old") []))
    as (_ & Hsent & ids & Hids & Hfile).
  { reflexivity. }
  { apply (bool_decide_unpack _). vm_compute. exact I. }
  split; [|exact Hsent].
  rewrite Hfile. clear Hfile Hsent.
  change (Upload.documents _)
    with [Smartbok.lit "a.docx"; Smartbok.lit "b.docx"] in Hids.
  apply Forall2_cons_inv_l in Hids as (ida & ids' & Ha & Hids & ->).
  apply Forall2_cons_inv_l in Hids as (idb & ids'' & Hb & Hids & ->).
  apply Forall2_nil_inv_l in Hids as ->.
  vm_compute in Ha, Hb. injection Ha as <-. injection Hb as <-.
  reflexivity.
Defined.

(** A directory whose name ends in [.docx] ends the script: the document
    before it was uploaded and its identifier written, nothing is sent for
    the directory or for the document after it. *)
Lemma directory_named_docx_ends_the_script :
  Upload.script office_drive (Smartbok.lit "H:")
    (Upload.State (Smartbok.lit "old") [])
  = (Upload.State (Smartbok.lit "id-a.docx" ++ [Smartbok.nl])
       [Upload.Created (Smartbok.lit "a.docx")
          (Smartbok.lit "H:" ++ [backslash] ++ Smartbok.lit "a.docx");
        Upload.Print
          (Smartbok.lit "Uploaded & converted: a.docx (ID: id-a.docx)")],
     Some (Smartbok.lit "Is a directory")).
Proof. vm_compute. reflexivity. Qed.
